(** * LEMINO AI Product Studio: the generation pipeline and its state machine

    A shallow embedding of the single-page application's non-visual logic:
    the Gemini service wrappers ([getAspectRatioDescription],
    [executeImageGeneration], [generateCharacterPlacementImage],
    [generateProductConceptImage]), the image uploader's file handler and the
    [App] component's handlers ([handleGenerate], [handleStartOver], ...).

    JavaScript strings are modelled by [string]; a character stands for one
    code unit in the range 0..255 (every string the application builds
    itself -- templates, data-URL prefixes, decimal numbers -- is ASCII).
    Loop counters and array indices are modelled by [nat]. A custom width
    or height is held as the integer that [parseInt] read ([Z]); JavaScript
    keeps the nearest Number, and [Js.numberToString] prints that Number
    as the language does, rounding first.
    Exceptions are values of [Js.result]; an [async] call is summarised by
    the requests it sends, the time it settles and what it settles with.

    The file has three parts: the model, function by function as in the
    source; the vocabulary that the statements use; and the properties. *)

From Stdlib Require Import ZArith Bool Ascii String Lia.
From Stdlib Require Import Decimal DecimalString List.
From Stdlib Require DecimalPos DecimalZ.
Import ListNotations.
Local Open Scope string_scope.
Local Open Scope list_scope.

(** String concatenation, kept apart from the append of lists. *)
Infix "+:+" := String.append (at level 60, right associativity).

(** ** JavaScript primitives used by the application *)

Module Js.

(** The double-quote character, which the templates place around the
    user's text. *)
Definition dq : string := String (ascii_of_nat 34) EmptyString.

(** The line feed, written [\n] in the source. *)
Definition nl : string := String (ascii_of_nat 10) EmptyString.

(** Truthiness of a string value: every string but the empty one. *)
Definition truthy (s : string) : bool :=
  match s with
  | EmptyString => false
  | String _ _ => true
  end.

(** Truthiness of [string | null]. *)
Definition truthyOpt (o : option string) : bool :=
  match o with
  | Some s => truthy s
  | None => false
  end.

(** Truthiness of [object | null | undefined]. *)
Definition present {A : Type} (o : option A) : bool :=
  match o with
  | Some _ => true
  | None => false
  end.

(** The decimal digits of an integer, after a minus sign for a negative
    one. This is [`${n}`] for every integer [n] below 2^53 in absolute
    value, hence for every array index and loop counter. *)
Definition integerToString (n : Z) : string :=
  NilZero.string_of_int (Z.to_int n).

(** The Number nearest to an integer [z >= 0]. Below 2^53 every integer is
    a Number; from there on a Number is an integer of 53 bits times a power
    of two, and [z] is rounded to the nearest one, a tie going to the even
    53-bit integer. [None] stands for [Infinity], which is what every
    integer from 2^1024 - 2^970 on rounds to. *)
Definition toNumber (z : Z) : option Z :=
  if (z <? 2 ^ 53)%Z then Some z
  else
    let e := (Z.log2 z - 52)%Z in
    let q := Z.shiftr z e in
    let r := (z - Z.shiftl q e)%Z in
    let half := Z.shiftl 1 (e - 1) in
    let q' :=
      if (r <? half)%Z || ((r =? half)%Z && Z.even q) then q else (q + 1)%Z in
    let v := Z.shiftl q' e in
    if (v <? 2 ^ 1024)%Z then Some v else None.

(** The Number nearest to [m] is [v]. *)
Definition roundsTo (v m : Z) : bool :=
  match toNumber m with
  | Some v' => (v' =? v)%Z
  | None => false
  end.

(** [Number::toString], steps on the digits: of the decimals [s * 10^j]
    whose nearest Number is [v], the one with the fewest digits [s], and
    among several of that length the closest to [v] (the even [s] for a
    tie), which is the choice the standard recommends and the engines
    make. [unit] is the power of ten at the digit under trial, starting at
    the first digit of [v]; the two candidates on a digit are [v] cut off
    there and the next decimal above. *)
Fixpoint shortestDecimal (fuel : nat) (unit v : Z) : Z :=
  match fuel with
  | O => v
  | S fuel' =>
      let lo := (v / unit * unit)%Z in
      let hi := (lo + unit)%Z in
      match roundsTo v lo, roundsTo v hi with
      | true, true =>
          if (v - lo <? hi - v)%Z then lo
          else if (hi - v <? v - lo)%Z then hi
          else if Z.even (v / unit) then lo else hi
      | true, false => lo
      | false, true => hi
      | false, false => shortestDecimal fuel' (unit / 10) v
      end
  end.

Fixpoint dropTrailingZeros (s : string) : string :=
  match s with
  | EmptyString => EmptyString
  | String c r =>
      match dropTrailingZeros r with
      | EmptyString => if Ascii.eqb c "0" then EmptyString else String c EmptyString
      | r' => String c r'
      end
  end.

(** The exponent form of a decimal given by its digits: the first digit,
    the other digits up to the last non-zero one after a point (if there
    are any), and [e+] with the number of digits after the first. *)
Definition exponentForm (digits : string) : string :=
  match digits with
  | EmptyString => EmptyString
  | String d rest =>
      String d
        (match dropTrailingZeros rest with
         | EmptyString => EmptyString
         | fraction => "." +:+ fraction
         end)
      +:+ "e+" +:+ integerToString (Z.of_nat (String.length rest))
  end.

(** [Number::toString] of a finite Number [v >= 0] that is an integer: its
    digits below 2^53; otherwise the shortest decimal that denotes it,
    written out with its zeros below 10^21 and in exponent form from there
    on. *)
Definition printNumber (v : Z) : string :=
  if (v <? 2 ^ 53)%Z then integerToString v
  else
    let n := String.length (integerToString v) in
    let m := shortestDecimal n (10 ^ (Z.of_nat n - 1)) v in
    if (m <? 10 ^ 21)%Z then integerToString m
    else exponentForm (integerToString m).

(** [`${z}`] for the Number nearest to the integer [z]. *)
Definition numberToString (z : Z) : string :=
  let magnitude :=
    match toNumber (Z.abs z) with
    | Some v => printNumber v
    | None => "Infinity"
    end in
  if (z <? 0)%Z then "-" +:+ magnitude else magnitude.

(** [`${v}`] for a value that may be [undefined]. *)
Definition templateOpt (o : option string) : string :=
  match o with
  | Some s => s
  | None => "undefined"
  end.

(** White space and line terminators stripped by [String.prototype.trim],
    within the modelled range of code units. *)
Definition isWhiteSpace (c : ascii) : bool :=
  match nat_of_ascii c with
  | 9 | 10 | 11 | 12 | 13 | 32 | 160 => true
  | _ => false
  end.

Fixpoint trimStart (s : string) : string :=
  match s with
  | EmptyString => EmptyString
  | String c r => if isWhiteSpace c then trimStart r else s
  end.

Fixpoint trimEnd (s : string) : string :=
  match s with
  | EmptyString => EmptyString
  | String c r =>
      match trimEnd r with
      | EmptyString => if isWhiteSpace c then EmptyString else String c EmptyString
      | r' => String c r'
      end
  end.

Definition trim (s : string) : string := trimEnd (trimStart s).

(** Characters that the regular expression atom [.] does not match. *)
Definition isLineTerminator (c : ascii) : bool :=
  match nat_of_ascii c with
  | 10 | 13 => true
  | _ => false
  end.

Fixpoint noLineTerminator (s : string) : bool :=
  match s with
  | EmptyString => true
  | String c r => negb (isLineTerminator c) && noLineTerminator r
  end.

(** [s.startsWith(p)], returning what follows the prefix. *)
Fixpoint stripPrefix (p s : string) : option string :=
  match p, s with
  | EmptyString, _ => Some s
  | String a p', String b s' =>
      if Ascii.eqb a b then stripPrefix p' s' else None
  | String _ _, EmptyString => None
  end.

Definition startsWith (p s : string) : bool := present (stripPrefix p s).

(** [s.includes(lit)]. *)
Fixpoint includes (lit s : string) : bool :=
  startsWith lit s ||
  match s with
  | EmptyString => false
  | String _ r => includes lit r
  end.

(** Values a JavaScript [throw] can carry, as far as the code tells them
    apart ([err instanceof Error ? err.message : ...]). *)
Inductive thrown : Type :=
| JsError (message : string)
| NonError.

(** A computation that returns or throws. *)
Inductive result (A : Type) : Type :=
| Ok (a : A)
| Throw (e : thrown).
Arguments Ok {A} a.
Arguments Throw {A} e.

Definition bind {A B : Type} (r : result A) (k : A -> result B) : result B :=
  match r with
  | Ok a => k a
  | Throw e => Throw e
  end.

(** [try { ... } catch (error) { handler }]. *)
Definition tryCatch {A : Type} (r : result A) (handler : thrown -> result A)
  : result A :=
  match r with
  | Ok a => Ok a
  | Throw e => handler e
  end.

(** [error instanceof Error ? error.message : dflt]. *)
Definition messageOr (dflt : string) (e : thrown) : string :=
  match e with
  | JsError m => m
  | NonError => dflt
  end.

Definition succeeded {A : Type} (r : result A) : bool :=
  match r with
  | Ok _ => true
  | Throw _ => false
  end.

(** [Array.prototype.map] with a callback that may throw: the first throw
    aborts the traversal. *)
Fixpoint mapM {A B : Type} (f : A -> result B) (l : list A) : result (list B) :=
  match l with
  | [] => Ok []
  | x :: r =>
      bind (f x) (fun y => bind (mapM f r) (fun ys => Ok (y :: ys)))
  end.

End Js.

Notation "x <- c ;; k" := (Js.bind c (fun x => k))
  (at level 61, c at next level, right associativity).

(** ** services/geminiService.ts *)

(** A [Blob] of the generative API: both fields are optional in a response. *)
Module Blob.
Record t : Type := mk { data : option string; mimeType : option string }.
End Blob.

(** A content part: an inline image, a text, or (in a response) neither. *)
Module Part.
Record t : Type := mk { inlineData : option Blob.t; text : option string }.
End Part.

(** [response.candidates?.[0]?.content?.parts]: every link may be absent. *)
Module Response.
Record content : Type := mkContent { parts : option (list Part.t) }.
Record candidate : Type := mkCandidate { content_ : option content }.
Record t : Type := mk { candidates : option (list candidate) }.

Definition responseParts (response : t) : option (list Part.t) :=
  match candidates response with
  | Some (c :: _) =>
      match content_ c with
      | Some ct => parts ct
      | None => None
      end
  | _ => None
  end.
End Response.

(** What the hosted model does with one [generateContent] call: when the
    call settles, and whether it resolves with a response or rejects. *)
Module Api.
Inductive reply : Type :=
| Responds (response : Response.t)
| Fails (e : Js.thrown).

Record outcome : Type := mkOutcome { arrival : nat; reply_ : reply }.

(** One network endpoint: the request's parts determine the outcome. *)
Definition endpoint : Type := list Part.t -> outcome.
End Api.

(** The decoded image handed to the request builder. *)
Module ImagePayload.
Record t : Type := mk { base64 : string; mimeType : string }.
End ImagePayload.

(** [{ imageData: { data, mimeType } }]; [data] is a non-empty string when
    [executeImageGeneration] returns, [mimeType] is whatever the model sent. *)
Module GeneratedImage.
Record t : Type := mk { data : string; mimeType : option string }.
End GeneratedImage.

(** An [async] call seen from outside: the requests it put on the network,
    the time it settles and the value or rejection it settles with. *)
Module Promise.
Record t (A : Type) : Type :=
  mk { sent : list (list Part.t); settledAt : nat; settled : Js.result A }.
Arguments mk {A} sent settledAt settled.
Arguments sent {A} _.
Arguments settledAt {A} _.
Arguments settled {A} _.
End Promise.

Definition base64ToGenerativePart (base64 mimeType : string) : Part.t :=
  Part.mk (Some (Blob.mk (Some base64) (Some mimeType))) None.

Definition textPart (prompt : string) : Part.t := Part.mk None (Some prompt).

Definition getAspectRatioDescription (ratio : string) (width height : Z) : string :=
  if (ratio =? "custom") && (0 <? width)%Z && (0 <? height)%Z then
    "a (" +:+ Js.numberToString width +:+ ":" +:+ Js.numberToString height +:+ ")"
  else if ratio =? "1:1" then "a square (1:1)"
  else if ratio =? "3:4" then "a portrait (3:4)"
  else if ratio =? "4:3" then "a landscape (4:3)"
  else "a (" +:+ ratio +:+ ")".

(** The part of [executeImageGeneration] that follows the [await]: reading
    the image out of the response. *)
Definition readResponse (response : Response.t) : Js.result GeneratedImage.t :=
  match Response.responseParts response with
  | None => Js.Throw (Js.JsError "Invalid response from model. No parts found.")
  | Some responseParts =>
      let imagePart := find (fun p => Js.present (Part.inlineData p)) responseParts in
      match imagePart with
      | Some (Part.mk (Some (Blob.mk (Some (String c d)) mimeType)) _) =>
          Js.Ok (GeneratedImage.mk (String c d) mimeType)
      | _ =>
          let text :=
            match find (fun p => Js.truthyOpt (Part.text p)) responseParts with
            | Some p => Part.text p
            | None => None
            end in
          Js.Throw (Js.JsError
            ("Model did not return an image. Response: " +:+
             match text with Some t => t | None => "<no text>" end))
      end
  end.

Definition executeImageGeneration (call : Api.endpoint) (parts : list Part.t)
  : Promise.t GeneratedImage.t :=
  let o := call parts in
  Promise.mk [parts] (Api.arrival o)
    match Api.reply_ o with
    | Api.Fails e => Js.Throw e
    | Api.Responds response => readResponse response
    end.

(** *** The four instruction templates

    Each template literal of the source is cut where it interpolates the
    aspect-ratio clause and the user's text; the pieces are the literal's
    own characters, line breaks included. *)

Definition outfitTemplateHead : string :=
  "You are a professional digital artist. Your task is to dress a character in a specific outfit and have them interact with a product.

INSTRUCTIONS:
1.  Analyze the first image, which contains the CHARACTER. Pay attention to their posture, lighting, and environment.
2.  Analyze the second image, which contains the PRODUCT. Note its shape, size, and branding.
3.  Analyze the third image, which contains the OUTFIT.
4.  Create a NEW, high-quality, photorealistic image where the CHARACTER from the first image is wearing the OUTFIT from the third image, and is naturally interacting with, holding, or using the PRODUCT from the second image.
5.  The final image should look like a single, cohesive photograph. The lighting on the product and outfit must match the lighting on the character and the scene.
6.  Maintain the character's appearance and identity (face, etc.), but change their clothing to match the provided OUTFIT.
7.  Maintain the product's appearance and branding.
8.  The final image MUST have ".

Definition outfitTemplateMid : string :=
  " aspect ratio.
9.  The background can be inspired by the character's image or a simple, neutral studio background if the original is too complex.
".

Definition outfitTemplateTail : string :=
  "

OUTPUT:
- You MUST return only the final image.
- DO NOT return any text, JSON, or other data.".

Definition placementTemplateHead : string :=
  "You are a professional digital artist specializing in photorealistic product placement. Your task is to seamlessly integrate a product into a scene with a character.

INSTRUCTIONS:
1.  Analyze the first image, which contains the CHARACTER. Pay attention to their posture, lighting, and environment.
2.  Analyze the second image, which contains the PRODUCT. Note its shape, size, and branding.
3.  Create a NEW, high-quality, photorealistic image where the CHARACTER from the first image is naturally interacting with, holding, or using the PRODUCT from the second image.
4.  The final image should look like a single, cohesive photograph. The lighting on the product must match the lighting on the character.
5.  Maintain the character's appearance and identity. Do not change their face or clothing unless necessary for the interaction.
6.  Maintain the product's appearance and branding.
7.  The final image MUST have ".

Definition placementTemplateMid : string :=
  " aspect ratio.
8.  The background can be inspired by the character's image or a simple, neutral studio background if the original is too complex.
".

Definition placementTemplateTail : string :=
  "

OUTPUT:
- You MUST return only the final image.
- DO NOT return any text, JSON, or other data.".

Definition backgroundTemplateHead : string :=
  "You are a professional product photographer and digital artist. Your task is to place the product from the first image into the background provided in the second image.
    
INSTRUCTIONS:
1.  Analyze the first image to understand the PRODUCT.
2.  Analyze the second image which is the BACKGROUND scene.
3.  Create a NEW, high-quality, photorealistic image that seamlessly places the PRODUCT into the BACKGROUND.
4.  The lighting, shadows, and reflections on the product MUST match the new environment perfectly.
5.  The final image should be a convincing and aesthetically pleasing product photograph.
6.  Do not change the product itself or the background. Only integrate the product into the background.
7.  The final image MUST have ".

Definition backgroundTemplateMid : string :=
  " aspect ratio.
".

Definition backgroundTemplateTail : string :=
  "

OUTPUT:
- You MUST return only the final image.
- DO NOT return any text, JSON, or other data.".

Definition sceneTemplateHead : string :=
  "You are a professional product photographer and digital artist. Your task is to place the product from the provided image into a new, beautifully composed scene.
    
INSTRUCTIONS:
1.  Analyze the provided image to understand the PRODUCT.
2.  Read the user's description of the desired scene.
3.  Create a NEW, high-quality, photorealistic image that places the product into the scene described by the user.
4.  The lighting, shadows, and reflections on the product MUST match the new environment perfectly.
5.  The final image should be a convincing and aesthetically pleasing product photograph.
6.  Do not change the product itself.
7.  The final image MUST have ".

Definition sceneTemplateMid : string :=
  " aspect ratio.

USER SCENE DESCRIPTION: ".

Definition sceneTemplateTail : string :=
  "

OUTPUT:
- You MUST return only the final image.
- DO NOT return any text, JSON, or other data.".

(** [userPrompt ? `\nADDITIONAL USER REQUEST: "${userPrompt}"` : ''] *)
Definition additionalRequest (userPrompt : string) : string :=
  if Js.truthy userPrompt then
    Js.nl +:+ "ADDITIONAL USER REQUEST: " +:+ Js.dq +:+ userPrompt +:+ Js.dq
  else EmptyString.

(** The instruction of character mode; [outfit] tells which template. *)
Definition characterPlacementPrompt (outfit : bool) (userPrompt aspectRatio : string)
    (customWidth customHeight : Z) : string :=
  if outfit then
    outfitTemplateHead
      +:+ getAspectRatioDescription aspectRatio customWidth customHeight
      +:+ outfitTemplateMid +:+ additionalRequest userPrompt +:+ outfitTemplateTail
  else
    placementTemplateHead
      +:+ getAspectRatioDescription aspectRatio customWidth customHeight
      +:+ placementTemplateMid +:+ additionalRequest userPrompt
      +:+ placementTemplateTail.

(** The parts that [generateCharacterPlacementImage] assembles before it
    calls the model. *)
Definition characterPlacementParts (characterImage productImage : ImagePayload.t)
    (outfitImage : option ImagePayload.t) (userPrompt aspectRatio : string)
    (customWidth customHeight : Z) : list Part.t :=
  let characterPart :=
    base64ToGenerativePart (ImagePayload.base64 characterImage)
                           (ImagePayload.mimeType characterImage) in
  let productPart :=
    base64ToGenerativePart (ImagePayload.base64 productImage)
                           (ImagePayload.mimeType productImage) in
  let parts := [characterPart; productPart] in
  match outfitImage with
  | Some outfitImage =>
      let outfitPart :=
        base64ToGenerativePart (ImagePayload.base64 outfitImage)
                               (ImagePayload.mimeType outfitImage) in
      let parts := parts ++ [outfitPart] in
      let prompt :=
        characterPlacementPrompt true userPrompt aspectRatio customWidth customHeight in
      parts ++ [textPart prompt]
  | None =>
      let prompt :=
        characterPlacementPrompt false userPrompt aspectRatio customWidth customHeight in
      parts ++ [textPart prompt]
  end.

(** [catch (error) { throw new Error(`${prefix}${error instanceof Error ?
    error.message : ''}`) }] around an awaited call. *)
Definition rethrow (prefix : string) (p : Promise.t GeneratedImage.t)
  : Promise.t GeneratedImage.t :=
  Promise.mk (Promise.sent p) (Promise.settledAt p)
    (Js.tryCatch (Promise.settled p)
       (fun error => Js.Throw (Js.JsError (prefix +:+ Js.messageOr EmptyString error)))).

Definition generateCharacterPlacementImage (call : Api.endpoint)
    (characterImage productImage : ImagePayload.t)
    (outfitImage : option ImagePayload.t) (userPrompt aspectRatio : string)
    (customWidth customHeight : Z) : Promise.t GeneratedImage.t :=
  rethrow "Failed to generate image. "
    (executeImageGeneration call
       (characterPlacementParts characterImage productImage outfitImage
          userPrompt aspectRatio customWidth customHeight)).

(** The instruction of product mode; [background] tells which template. *)
Definition productConceptPrompt (background : bool) (userPrompt aspectRatio : string)
    (customWidth customHeight : Z) : string :=
  if background then
    backgroundTemplateHead
      +:+ getAspectRatioDescription aspectRatio customWidth customHeight
      +:+ backgroundTemplateMid +:+ additionalRequest userPrompt
      +:+ backgroundTemplateTail
  else
    sceneTemplateHead
      +:+ getAspectRatioDescription aspectRatio customWidth customHeight
      +:+ sceneTemplateMid +:+ Js.dq +:+ userPrompt +:+ Js.dq +:+ sceneTemplateTail.

Definition productConceptParts (productImage : ImagePayload.t)
    (backgroundImage : option ImagePayload.t) (userPrompt aspectRatio : string)
    (customWidth customHeight : Z) : list Part.t :=
  let productPart :=
    base64ToGenerativePart (ImagePayload.base64 productImage)
                           (ImagePayload.mimeType productImage) in
  let parts := [productPart] in
  match backgroundImage with
  | Some backgroundImage =>
      let backgroundPart :=
        base64ToGenerativePart (ImagePayload.base64 backgroundImage)
                               (ImagePayload.mimeType backgroundImage) in
      let parts := parts ++ [backgroundPart] in
      let prompt :=
        productConceptPrompt true userPrompt aspectRatio customWidth customHeight in
      parts ++ [textPart prompt]
  | None =>
      let prompt :=
        productConceptPrompt false userPrompt aspectRatio customWidth customHeight in
      parts ++ [textPart prompt]
  end.

Definition generateProductConceptImage (call : Api.endpoint)
    (productImage : ImagePayload.t) (backgroundImage : option ImagePayload.t)
    (userPrompt aspectRatio : string) (customWidth customHeight : Z)
  : Promise.t GeneratedImage.t :=
  rethrow "Failed to generate product concept. "
    (executeImageGeneration call
       (productConceptParts productImage backgroundImage
          userPrompt aspectRatio customWidth customHeight)).

(** ** types.ts and the state of [App] *)

Module AppState.
Inductive t : Type := Idle | Loading | Result | Error.
End AppState.

Module Mode.
Inductive t : Type := character | product.

Definition eqb (a b : t) : bool :=
  match a, b with
  | character, character | product, product => true
  | _, _ => false
  end.
End Mode.

(** The four upload slots of [handleImageUpload] and [handleImageClear]. *)
Module Slot.
Inductive t : Type := character | product | outfit | background.
End Slot.

Module HistoryItem.
Record t : Type := mk {
  id : Z;
  images : list string;
  prompt : string;
  mode : Mode.t;
  characterImage : option string;
  productImage : option string;
  outfitImage : option string;
  backgroundImage : option string
}.
End HistoryItem.

(** The [useState] slots of [App], in the order of their declaration
    (the zoom modal's slot, which no handler below reads, is left out). *)
Record State : Type := mkState {
  appState : AppState.t;
  mode : Mode.t;
  characterImage : option string;
  productImage : option string;
  outfitImage : option string;
  backgroundImage : option string;
  characterPrompt : string;
  productPrompt : string;
  numberOfImages : nat;
  aspectRatio : string;
  customWidth : Z;
  customHeight : Z;
  resultImages : list string;
  error : option string;
  history : list HistoryItem.t
}.

Definition initialState : State :=
  mkState AppState.Idle Mode.character None None None None
          EmptyString EmptyString 1 "1:1" 1024%Z 1024%Z [] None [].

Definition setAppState (v : AppState.t) (s : State) : State :=
  mkState v (mode s) (characterImage s) (productImage s) (outfitImage s)
    (backgroundImage s) (characterPrompt s) (productPrompt s) (numberOfImages s)
    (aspectRatio s) (customWidth s) (customHeight s) (resultImages s) (error s)
    (history s).

Definition setMode (v : Mode.t) (s : State) : State :=
  mkState (appState s) v (characterImage s) (productImage s) (outfitImage s)
    (backgroundImage s) (characterPrompt s) (productPrompt s) (numberOfImages s)
    (aspectRatio s) (customWidth s) (customHeight s) (resultImages s) (error s)
    (history s).

Definition setCharacterImage (v : option string) (s : State) : State :=
  mkState (appState s) (mode s) v (productImage s) (outfitImage s)
    (backgroundImage s) (characterPrompt s) (productPrompt s) (numberOfImages s)
    (aspectRatio s) (customWidth s) (customHeight s) (resultImages s) (error s)
    (history s).

Definition setProductImage (v : option string) (s : State) : State :=
  mkState (appState s) (mode s) (characterImage s) v (outfitImage s)
    (backgroundImage s) (characterPrompt s) (productPrompt s) (numberOfImages s)
    (aspectRatio s) (customWidth s) (customHeight s) (resultImages s) (error s)
    (history s).

Definition setOutfitImage (v : option string) (s : State) : State :=
  mkState (appState s) (mode s) (characterImage s) (productImage s) v
    (backgroundImage s) (characterPrompt s) (productPrompt s) (numberOfImages s)
    (aspectRatio s) (customWidth s) (customHeight s) (resultImages s) (error s)
    (history s).

Definition setBackgroundImage (v : option string) (s : State) : State :=
  mkState (appState s) (mode s) (characterImage s) (productImage s)
    (outfitImage s) v (characterPrompt s) (productPrompt s) (numberOfImages s)
    (aspectRatio s) (customWidth s) (customHeight s) (resultImages s) (error s)
    (history s).

Definition setCharacterPrompt (v : string) (s : State) : State :=
  mkState (appState s) (mode s) (characterImage s) (productImage s)
    (outfitImage s) (backgroundImage s) v (productPrompt s) (numberOfImages s)
    (aspectRatio s) (customWidth s) (customHeight s) (resultImages s) (error s)
    (history s).

Definition setProductPrompt (v : string) (s : State) : State :=
  mkState (appState s) (mode s) (characterImage s) (productImage s)
    (outfitImage s) (backgroundImage s) (characterPrompt s) v (numberOfImages s)
    (aspectRatio s) (customWidth s) (customHeight s) (resultImages s) (error s)
    (history s).

Definition setNumberOfImages (v : nat) (s : State) : State :=
  mkState (appState s) (mode s) (characterImage s) (productImage s)
    (outfitImage s) (backgroundImage s) (characterPrompt s) (productPrompt s) v
    (aspectRatio s) (customWidth s) (customHeight s) (resultImages s) (error s)
    (history s).

Definition setAspectRatio (v : string) (s : State) : State :=
  mkState (appState s) (mode s) (characterImage s) (productImage s)
    (outfitImage s) (backgroundImage s) (characterPrompt s) (productPrompt s)
    (numberOfImages s) v (customWidth s) (customHeight s) (resultImages s)
    (error s) (history s).

Definition setCustomWidth (v : Z) (s : State) : State :=
  mkState (appState s) (mode s) (characterImage s) (productImage s)
    (outfitImage s) (backgroundImage s) (characterPrompt s) (productPrompt s)
    (numberOfImages s) (aspectRatio s) v (customHeight s) (resultImages s)
    (error s) (history s).

Definition setCustomHeight (v : Z) (s : State) : State :=
  mkState (appState s) (mode s) (characterImage s) (productImage s)
    (outfitImage s) (backgroundImage s) (characterPrompt s) (productPrompt s)
    (numberOfImages s) (aspectRatio s) (customWidth s) v (resultImages s)
    (error s) (history s).

Definition setResultImages (v : list string) (s : State) : State :=
  mkState (appState s) (mode s) (characterImage s) (productImage s)
    (outfitImage s) (backgroundImage s) (characterPrompt s) (productPrompt s)
    (numberOfImages s) (aspectRatio s) (customWidth s) (customHeight s) v
    (error s) (history s).

Definition setError (v : option string) (s : State) : State :=
  mkState (appState s) (mode s) (characterImage s) (productImage s)
    (outfitImage s) (backgroundImage s) (characterPrompt s) (productPrompt s)
    (numberOfImages s) (aspectRatio s) (customWidth s) (customHeight s)
    (resultImages s) v (history s).

(** [setHistory(prev => f(prev))]: the functional form of the setter. *)
Definition setHistory (f : list HistoryItem.t -> list HistoryItem.t) (s : State)
  : State :=
  mkState (appState s) (mode s) (characterImage s) (productImage s)
    (outfitImage s) (backgroundImage s) (characterPrompt s) (productPrompt s)
    (numberOfImages s) (aspectRatio s) (customWidth s) (customHeight s)
    (resultImages s) (error s) (f (history s)).

(** ** components/ImageUploader.tsx *)

(** A file picked by the user, as the browser presents it: its MIME type,
    the base64 encoding of its bytes, and whether reading it succeeds. *)
Module File.
Record t : Type := mk { type : string; base64Bytes : string; readable : bool }.

(** The picker's filter [accept="image/*"]. *)
Definition accepted (f : t) : bool := Js.startsWith "image/" (type f).

(** [FileReader.readAsDataURL] followed by [reader.result]: the browser's
    data-URL of the file, or [null] when the read fails. (For a file of
    no bytes some browsers give the bare text [data:] instead; what is
    proved of a stored preview is stated for files that are not empty.) *)
Definition readAsDataURL (f : t) : option string :=
  if readable f then
    Some ("data:"
            +:+ (if Js.truthy (type f) then type f else "application/octet-stream")
            +:+ ";base64," +:+ base64Bytes f)
  else None.
End File.

(** [handleFileChange]: [files] is [event.target.files?.[0]]; the callback
    [onImageUpload] runs only for a truthy [reader.result]. *)
Definition handleFileChange (onImageUpload : string -> State -> State)
    (files : option File.t) (s : State) : State :=
  match files with
  | Some file =>
      match File.readAsDataURL file with
      | Some result => if Js.truthy result then onImageUpload result s else s
      | None => s
      end
  | None => s
  end.

(** ** App.tsx: the handlers *)

Definition handleImageUpload (type : Slot.t) (dataUrl : string) (s : State) : State :=
  match type with
  | Slot.character => setCharacterImage (Some dataUrl) s
  | Slot.product => setProductImage (Some dataUrl) s
  | Slot.outfit => setOutfitImage (Some dataUrl) s
  | Slot.background => setBackgroundImage (Some dataUrl) s
  end.

Definition handleImageClear (type : Slot.t) (s : State) : State :=
  match type with
  | Slot.character => setCharacterImage None s
  | Slot.product => setProductImage None s
  | Slot.outfit => setOutfitImage None s
  | Slot.background => setBackgroundImage None s
  end.

(** What [handleGenerate] does that the outside can observe, in order:
    calls of the state setters and requests put on the network. *)
Inductive effect : Type :=
| CallSetError (v : option string)
| CallSetAppState (v : AppState.t)
| CallSetHistory (newHistoryItem : HistoryItem.t)
| CallSetResultImages (v : list string)
| SendRequest (parts : list Part.t).

Module Run.
Record t : Type := mk { state : State; log : list effect }.

Definition start (s : State) : t := mk s [].

Definition perform (e : effect) (f : State -> State) (r : t) : t :=
  mk (f (state r)) (log r ++ [e]).

Definition send (requests : list (list Part.t)) (r : t) : t :=
  mk (state r) (log r ++ map SendRequest requests).
End Run.

(** The regular expression of [parseDataUrl], anchored at both ends: the
    text [data:], a first group [image/] with one of [jpeg], [png], [webp]
    (tried in this order), the text [;base64,], and a second group of any
    characters but line terminators. The result is the two groups. *)
Definition matchDataUrl (dataUrl : string) : option (string * string) :=
  match Js.stripPrefix "data:image/" dataUrl with
  | None => None
  | Some rest =>
      let alternative (subtype : string) :=
        match Js.stripPrefix (subtype +:+ ";base64,") rest with
        | Some payload =>
            if Js.noLineTerminator payload
            then Some ("image/" +:+ subtype, payload) else None
        | None => None
        end in
      match alternative "jpeg" with
      | Some m => Some m
      | None =>
          match alternative "png" with
          | Some m => Some m
          | None => alternative "webp"
          end
      end
  end.

Definition parseDataUrl (dataUrl : string) : Js.result ImagePayload.t :=
  match matchDataUrl dataUrl with
  | Some (mimeType, base64) => Js.Ok (ImagePayload.mk base64 mimeType)
  | None => Js.Throw (Js.JsError "Invalid image data URL.")
  end.

(** [parseDataUrl(image)] on a state slot. The slot is [null] only if the
    validation above the loop was skipped; [null.match] is then a
    [TypeError]. *)
Definition parseSlot (image : option string) : Js.result ImagePayload.t :=
  match image with
  | Some dataUrl => parseDataUrl dataUrl
  | None =>
      Js.Throw (Js.JsError "Cannot read properties of null (reading 'match')")
  end.

(** [image ? parseDataUrl(image) : null] *)
Definition parseOptionalSlot (image : option string)
  : Js.result (option ImagePayload.t) :=
  if Js.truthyOpt image then (p <- parseSlot image ;; Js.Ok (Some p))
  else Js.Ok None.

(** One turn of the [for] loop: the task pushed on [generationTasks], or the
    exception that leaves the loop. [api i] is the endpoint as it answers
    the [i]-th call of the batch. *)
Definition generationTask (api : nat -> Api.endpoint) (s : State)
    (currentPrompt : string) (i : nat) : Js.result (Promise.t GeneratedImage.t) :=
  match mode s with
  | Mode.character =>
      charImgParts <- parseSlot (characterImage s) ;;
      prodImgParts <- parseSlot (productImage s) ;;
      outfitImgParts <- parseOptionalSlot (outfitImage s) ;;
      Js.Ok (generateCharacterPlacementImage (api i)
               (ImagePayload.mk (ImagePayload.base64 charImgParts)
                                (ImagePayload.mimeType charImgParts))
               (ImagePayload.mk (ImagePayload.base64 prodImgParts)
                                (ImagePayload.mimeType prodImgParts))
               (match outfitImgParts with
                | Some o => Some (ImagePayload.mk (ImagePayload.base64 o)
                                                  (ImagePayload.mimeType o))
                | None => None
                end)
               currentPrompt (aspectRatio s) (customWidth s) (customHeight s))
  | Mode.product =>
      prodImgParts <- parseSlot (productImage s) ;;
      backgroundImgParts <- parseOptionalSlot (backgroundImage s) ;;
      Js.Ok (generateProductConceptImage (api i)
               (ImagePayload.mk (ImagePayload.base64 prodImgParts)
                                (ImagePayload.mimeType prodImgParts))
               (match backgroundImgParts with
                | Some b => Some (ImagePayload.mk (ImagePayload.base64 b)
                                                  (ImagePayload.mimeType b))
                | None => None
                end)
               currentPrompt (aspectRatio s) (customWidth s) (customHeight s))
  end.

(** [for (let i = 0; i < numberOfImages; i++)], entered at [i] with
    [remaining] turns to go: the tasks pushed so far and the exception, if
    any, that ended the loop early. *)
Fixpoint generationLoop (api : nat -> Api.endpoint) (s : State)
    (currentPrompt : string) (i remaining : nat)
    (generationTasks : list (Promise.t GeneratedImage.t))
  : list (Promise.t GeneratedImage.t) * option Js.thrown :=
  match remaining with
  | O => (generationTasks, None)
  | S remaining' =>
      match generationTask api s currentPrompt i with
      | Js.Throw e => (generationTasks, Some e)
      | Js.Ok task =>
          generationLoop api s currentPrompt (S i) remaining'
            (generationTasks ++ [task])
      end
  end.

(** The rejection that settles first among [tasks] (the earlier position
    wins a tie), given the best one seen so far. *)
Fixpoint firstRejection {A : Type} (tasks : list (Promise.t A))
    (best : option (nat * Js.thrown)) : option (nat * Js.thrown) :=
  match tasks with
  | [] => best
  | task :: rest =>
      match Promise.settled task with
      | Js.Ok _ => firstRejection rest best
      | Js.Throw e =>
          match best with
          | None => firstRejection rest (Some (Promise.settledAt task, e))
          | Some (t, _) =>
              if Nat.ltb (Promise.settledAt task) t
              then firstRejection rest (Some (Promise.settledAt task, e))
              else firstRejection rest best
          end
      end
  end.

(** [await Promise.all(tasks)]: the values in the order of [tasks] when all
    fulfil, the first rejection otherwise. *)
Definition promiseAll {A : Type} (tasks : list (Promise.t A)) : Js.result (list A) :=
  match firstRejection tasks None with
  | Some (_, e) => Js.Throw e
  | None => Js.mapM (fun task => Promise.settled task) tasks
  end.

(** The callback of [results.map(...)]. *)
Definition toDataUrl (result : GeneratedImage.t) : Js.result string :=
  if negb (Js.truthy (GeneratedImage.data result)) then
    Js.Throw (Js.JsError
      "One or more image generations failed. The model did not return a valid image.")
  else
    Js.Ok ("data:" +:+ Js.templateOpt (GeneratedImage.mimeType result)
             +:+ ";base64," +:+ GeneratedImage.data result).

Definition currentPromptOf (s : State) : string :=
  match mode s with
  | Mode.character => characterPrompt s
  | Mode.product => productPrompt s
  end.

(** The [try] block of [handleGenerate] down to [generatedImages]: the
    tasks that the loop started, and the data-URLs of the batch or the
    exception that takes control to the [catch] clause. *)
Definition tryBlock (api : nat -> Api.endpoint) (s : State)
  : list (Promise.t GeneratedImage.t) * Js.result (list string) :=
  let (generationTasks, thrownInLoop) :=
    generationLoop api s (currentPromptOf s) 0 (numberOfImages s) [] in
  (generationTasks,
   match thrownInLoop with
   | Some e => Js.Throw e
   | None =>
       results <- promiseAll generationTasks ;;
       Js.mapM toDataUrl results
   end).

(** [handleGenerate], run to completion: [api] answers the batch's calls,
    [now] is the reading of [Date.now()] taken for the history item. While
    a batch is in flight the page renders the loading overlay alone, so no
    other handler runs before the batch settles; the handler's closure
    reads the state [s] of the render it was created in, and [setHistory]
    is the only setter called with a function of the previous value. *)
Definition handleGenerate (api : nat -> Api.endpoint) (now : Z) (s : State) : Run.t :=
  let r := Run.perform (CallSetError None) (setError None) (Run.start s) in
  let currentPrompt := currentPromptOf s in
  let fail (message : string) :=
    Run.perform (CallSetError (Some message)) (setError (Some message)) r in
  if Mode.eqb (mode s) Mode.character
     && (negb (Js.truthyOpt (characterImage s))
         || negb (Js.truthyOpt (productImage s))) then
    fail "Please upload both a character and a product image."
  else if Mode.eqb (mode s) Mode.product
          && negb (Js.truthyOpt (productImage s)) then
    fail "Please upload a product image."
  else if Mode.eqb (mode s) Mode.product
          && negb (Js.truthy (Js.trim currentPrompt))
          && negb (Js.truthyOpt (backgroundImage s)) then
    fail "Please describe the scene or provide a background image for the product concept."
  else
    let r := Run.perform (CallSetAppState AppState.Loading)
                         (setAppState AppState.Loading) r in
    let (generationTasks, tried) := tryBlock api s in
    let r := Run.send (concat (map Promise.sent generationTasks)) r in
    match tried with
    | Js.Ok generatedImages =>
        let newHistoryItem :=
          HistoryItem.mk now generatedImages currentPrompt (mode s)
            (characterImage s) (productImage s) (outfitImage s)
            (backgroundImage s) in
        let r := Run.perform (CallSetHistory newHistoryItem)
                   (setHistory (fun prev => firstn 10 (newHistoryItem :: prev))) r in
        let r := Run.perform (CallSetResultImages generatedImages)
                   (setResultImages generatedImages) r in
        Run.perform (CallSetAppState AppState.Result)
          (setAppState AppState.Result) r
    | Js.Throw err =>
        let message := Js.messageOr "An unknown error occurred." err in
        let r := Run.perform (CallSetError (Some message))
                   (setError (Some message)) r in
        Run.perform (CallSetAppState AppState.Idle)
          (setAppState AppState.Idle) r
    end.

Definition handleStartOver (s : State) : State :=
  setError None
    (setResultImages []
       (setAspectRatio "1:1"
          (setNumberOfImages 1
             (setProductPrompt EmptyString
                (setCharacterPrompt EmptyString
                   (setBackgroundImage None
                      (setOutfitImage None
                         (setProductImage None
                            (setCharacterImage None
                               (setAppState AppState.Idle s)))))))))).

Definition handleContinue (s : State) : State :=
  setError None (setResultImages [] (setNumberOfImages 1 (setAppState AppState.Idle s))).

Definition handleReuseHistoryItem (item : HistoryItem.t) (s : State) : State :=
  let s := setMode (HistoryItem.mode item) s in
  let s := setCharacterImage (HistoryItem.characterImage item) s in
  let s := setProductImage (HistoryItem.productImage item) s in
  let s := setOutfitImage (HistoryItem.outfitImage item) s in
  let s := setBackgroundImage (HistoryItem.backgroundImage item) s in
  match HistoryItem.mode item with
  | Mode.character =>
      setProductPrompt EmptyString (setCharacterPrompt (HistoryItem.prompt item) s)
  | Mode.product =>
      setCharacterPrompt EmptyString (setProductPrompt (HistoryItem.prompt item) s)
  end.

(** ** A session: the user's actions on the page *)

(** The four size buttons and the value each passes to [setAspectRatio]. *)
Inductive sizeButton : Type := Square | Portrait | Landscape | Custom.

Definition sizeValue (b : sizeButton) : string :=
  match b with
  | Square => "1:1"
  | Portrait => "3:4"
  | Landscape => "4:3"
  | Custom => "custom"
  end.

(** [Math.max(0, parseInt(e.target.value, 10) || 0)]; [parsed] is the
    integer that [parseInt] read, [None] standing for [NaN]. The code
    keeps the Number nearest to that integer: the test [|| 0], the maximum
    and the later comparison with 0 give for the integer what they give
    for its Number, and the template literal prints it through
    [Js.numberToString], which rounds first. *)
Definition customSize (parsed : option Z) : Z :=
  Z.max 0 (match parsed with Some z => z | None => 0 end).

Inductive action : Type :=
| PickFile (slot : Slot.t) (files : option File.t)
| ClearImage (slot : Slot.t)
| ClickMode (m : Mode.t)
| TypePrompt (value : string)
| ClearPrompt
| ClickSize (b : sizeButton)
| TypeCustomWidth (parsed : option Z)
| TypeCustomHeight (parsed : option Z)
| ClickNumberOfImages (k : nat)
| ClickGenerate (api : nat -> Api.endpoint) (now : Z)
| ClickStartOver
| ClickContinue
| ClickReuse (k : nat)
| DismissError.

(** The state after one action. [ClickNumberOfImages k] and [ClickReuse k]
    press the [k]-th button of their row, if the page shows one;
    [ClickGenerate] stands for the Generate and the Regenerate buttons,
    which share their handler. *)
Definition step (a : action) (s : State) : State :=
  match a with
  | PickFile slot files => handleFileChange (handleImageUpload slot) files s
  | ClearImage slot => handleImageClear slot s
  | ClickMode m => setMode m s
  | TypePrompt value =>
      match mode s with
      | Mode.character => setCharacterPrompt value s
      | Mode.product => setProductPrompt value s
      end
  | ClearPrompt =>
      match mode s with
      | Mode.character => setCharacterPrompt EmptyString s
      | Mode.product => setProductPrompt EmptyString s
      end
  | ClickSize b => setAspectRatio (sizeValue b) s
  | TypeCustomWidth parsed => setCustomWidth (customSize parsed) s
  | TypeCustomHeight parsed => setCustomHeight (customSize parsed) s
  | ClickNumberOfImages k =>
      match nth_error [1; 2; 3; 4; 5; 6] k with
      | Some num => setNumberOfImages num s
      | None => s
      end
  | ClickGenerate api now => Run.state (handleGenerate api now s)
  | ClickStartOver => handleStartOver s
  | ClickContinue => handleContinue s
  | ClickReuse k =>
      match nth_error (history s) k with
      | Some item => handleReuseHistoryItem item s
      | None => s
      end
  | DismissError => setError None s
  end.

Definition stepEffects (a : action) (s : State) : list effect :=
  match a with
  | ClickGenerate api now => Run.log (handleGenerate api now s)
  | _ => []
  end.

Fixpoint run (actions : list action) (s : State) : State :=
  match actions with
  | [] => s
  | a :: rest => run rest (step a s)
  end.

Fixpoint effects (actions : list action) (s : State) : list effect :=
  match actions with
  | [] => []
  | a :: rest => stepEffects a s ++ effects rest (step a s)
  end.

(** The history items that a trace of effects archived, oldest first. *)
Definition archived (l : list effect) : list HistoryItem.t :=
  flat_map (fun e => match e with CallSetHistory item => [item] | _ => [] end) l.

(** The requests that a trace of effects put on the network, in order. *)
Definition requested (l : list effect) : list (list Part.t) :=
  flat_map (fun e => match e with SendRequest parts => [parts] | _ => [] end) l.

(** The values that a trace of effects passed to [setAppState], in order. *)
Definition appStatesSet (l : list effect) : list AppState.t :=
  flat_map (fun e => match e with CallSetAppState v => [v] | _ => [] end) l.

(** What [renderContent] shows of the generated images: the result view,
    with [resultImages], is rendered in the [Result] state only. *)
Definition displayedImages (s : State) : list string :=
  match appState s with
  | AppState.Result => resultImages s
  | _ => []
  end.

(** ** App.tsx: what the page renders *)

(** [isGenerateDisabled] of [renderIdleContent]: the Generate button's
    [disabled] attribute. *)
Definition isGenerateDisabled (s : State) : bool :=
  let currentPrompt := currentPromptOf s in
  (Mode.eqb (mode s) Mode.character
   && (negb (Js.truthyOpt (characterImage s))
       || negb (Js.truthyOpt (productImage s))))
  || (Mode.eqb (mode s) Mode.product
      && (negb (Js.truthyOpt (productImage s))
          || (negb (Js.truthy (Js.trim currentPrompt))
              && negb (Js.truthyOpt (backgroundImage s))))).

(** The element that [renderContent] returns. *)
Inductive view : Type :=
| IdleContent
| LoadingOverlay
| ResultView (imageSrcs : list string)
| Nothing.

Definition renderContent (s : State) : view :=
  match appState s with
  | AppState.Idle | AppState.Error => IdleContent
  | AppState.Loading => LoadingOverlay
  | AppState.Result =>
      if Nat.ltb 0 (length (resultImages s)) then ResultView (resultImages s)
      else Nothing
  end.

(** ** components/ResultView.tsx *)


(** ** The zoom modal *)

Module ZoomModal.

(** [a % b] on integers: [None] stands for [NaN], the result for [b = 0];
    otherwise the remainder has the sign of [a]. *)
Definition remainder (a b : Z) : option Z :=
  if (b =? 0)%Z then None else Some (Z.rem a b).

(** [setCurrentIndex((prev) => (prev + 1) % images.length)]; an index that
    is [NaN] stays [NaN]. *)
Definition handleNext (images : list string) (prev : option Z) : option Z :=
  match prev with
  | Some prev => remainder (prev + 1) (Z.of_nat (length images))
  | None => None
  end.

(** [setCurrentIndex((prev) => (prev - 1 + images.length) % images.length)] *)
Definition handlePrev (images : list string) (prev : option Z) : option Z :=
  match prev with
  | Some prev =>
      remainder (prev - 1 + Z.of_nat (length images)) (Z.of_nat (length images))
  | None => None
  end.

(** The modal while it is mounted: the images it was opened with, the
    current index and whether [onClose] has been called. *)
Record t : Type := mk {
  images : list string;
  currentIndex : option Z;
  closed : bool
}.

(** [handleOpenZoomModal(images, startIndex)] mounts the modal, whose
    [useState(startIndex)] starts the index there. *)
Definition open (images : list string) (startIndex : nat) : t :=
  mk images (Some (Z.of_nat startIndex)) false.

(** [handleKeyDown]: the arrow keys move, Escape closes, other keys do
    nothing. *)
Definition handleKeyDown (key : string) (m : t) : t :=
  if key =? "ArrowRight" then
    mk (images m) (handleNext (images m) (currentIndex m)) (closed m)
  else if key =? "ArrowLeft" then
    mk (images m) (handlePrev (images m) (currentIndex m)) (closed m)
  else if key =? "Escape" then
    mk (images m) (currentIndex m) true
  else m.

(** [images[currentIndex]], the source of the zoomed picture: [undefined]
    outside the list and for an index that is not a natural number. *)
Definition shown (m : t) : option string :=
  match currentIndex m with
  | Some i => if (i <? 0)%Z then None else nth_error (images m) (Z.to_nat i)
  | None => None
  end.

End ZoomModal.

(** * Vocabulary of the statements *)

(** ** Parts, responses and endpoints *)

(** A part that carries an inline image and no text. *)
Definition isImagePart (p : Part.t) : bool :=
  Js.present (Part.inlineData p) && negb (Js.present (Part.text p)).

(** A part that carries a text and no inline image. *)
Definition isTextPart (p : Part.t) : bool :=
  Js.present (Part.text p) && negb (Js.present (Part.inlineData p)).

(** A response whose first candidate holds the given parts. *)
Definition responseWith (parts : list Part.t) : Response.t :=
  Response.mk
    (Some [Response.mkCandidate (Some (Response.mkContent (Some parts)))]).

(** The endpoint that resolves every call with [response] at time [t]. *)
Definition respondsWith (t : nat) (response : Response.t) : Api.endpoint :=
  fun _ => Api.mkOutcome t (Api.Responds response).

(** The text that a failure message quotes: the first non-empty [text]. *)
Definition quotedText (explanation : string) (parts : list Part.t) : Prop :=
  (exists pre p post,
      parts = pre ++ p :: post /\ Part.text p = Some explanation /\
      explanation <> EmptyString /\
      forall q, In q pre -> Js.truthyOpt (Part.text q) = false)
  \/ (explanation = "<no text>" /\
      forall q, In q parts -> Js.truthyOpt (Part.text q) = false).

(** The endpoint that would answer any request with a PNG image. *)
Definition alwaysImage (t : nat) : Api.endpoint :=
  respondsWith t
    (responseWith
       [Part.mk (Some (Blob.mk (Some "iVBORw0KGgo=") (Some "image/png"))) None]).

(** An endpoint whose model answers with a text and no image. *)
Definition onlyText (t : nat) (explanation : string) : Api.endpoint :=
  respondsWith t (responseWith [Part.mk None (Some explanation)]).

(** An endpoint per call: the [i]-th call resolves at time [10 - i] with an
    image of its own, so the calls settle in the reverse of their order. *)
Definition numberedImages (i : nat) : Api.endpoint :=
  respondsWith (10 - i)
    (responseWith
       [Part.mk None (Some "Here is your image.");
        Part.mk (Some (Blob.mk (Some (nth i ["QUFB"; "QkJC"; "Q0ND"] "RERE"))
                               (Some "image/png")))
                None]).

(** ** Uploaded images *)

(** The state slot that an uploader fills. *)
Definition slotImage (slot : Slot.t) (s : State) : option string :=
  match slot with
  | Slot.character => characterImage s
  | Slot.product => productImage s
  | Slot.outfit => outfitImage s
  | Slot.background => backgroundImage s
  end.

(** The data-URL begins as [parseDataUrl] requires. *)
Definition acceptedPrefix (url : string) : bool :=
  Js.startsWith "data:image/jpeg;base64," url
  || Js.startsWith "data:image/png;base64," url
  || Js.startsWith "data:image/webp;base64," url.

(** An image slot is missing when it holds nothing the code takes for an
    image: [null], as after a clear, or the empty string. *)
Definition missing (image : option string) : Prop := Js.truthyOpt image = false.

(** ** Generate actions *)

(** The inputs pass the validation of [handleGenerate]. *)
Definition complete (s : State) : Prop :=
  match mode s with
  | Mode.character =>
      Js.truthyOpt (characterImage s) = true /\ Js.truthyOpt (productImage s) = true
  | Mode.product =>
      Js.truthyOpt (productImage s) = true /\
      (Js.trim (productPrompt s) <> EmptyString \/
       Js.truthyOpt (backgroundImage s) = true)
  end.

(** The tasks that a generate action pushes on [generationTasks]. *)
Definition generationTasksOf (api : nat -> Api.endpoint) (s : State)
  : list (Promise.t GeneratedImage.t) :=
  fst (tryBlock api s).

(** A generate action succeeds when it reaches the transition to [Result]. *)
Definition succeeds (api : nat -> Api.endpoint) (now : Z) (s : State) : Prop :=
  In (CallSetAppState AppState.Result) (Run.log (handleGenerate api now s)).

(** The displayable form of a generated image. *)
Definition dataUrlOf (image : GeneratedImage.t) : string :=
  "data:" +:+ Js.templateOpt (GeneratedImage.mimeType image)
    +:+ ";base64," +:+ GeneratedImage.data image.

(** The message that the [catch] clause of [handleGenerate] shows. *)
Definition shownMessage (err : Js.thrown) : string :=
  Js.messageOr "An unknown error occurred." err.

(** The values that a trace of effects passed to [setResultImages]. *)
Definition resultImagesSet (l : list effect) : list (list string) :=
  flat_map (fun e => match e with CallSetResultImages v => [v] | _ => [] end) l.

(** The run of a generate action whose [try] block threw [err] after
    starting [tasks]. *)
Definition failedRun (s : State) (tasks : list (Promise.t GeneratedImage.t))
    (err : Js.thrown) : Run.t :=
  Run.mk (setAppState AppState.Idle (setError (Some (shownMessage err)) s))
    ([CallSetError None; CallSetAppState AppState.Loading]
       ++ map SendRequest (concat (map Promise.sent tasks))
       ++ [CallSetError (Some (shownMessage err));
           CallSetAppState AppState.Idle]).

(** The history item of a batch that produced [generatedImages]. *)
Definition historyItemOf (now : Z) (s : State) (generatedImages : list string)
  : HistoryItem.t :=
  HistoryItem.mk now generatedImages (currentPromptOf s) (mode s)
    (characterImage s) (productImage s) (outfitImage s) (backgroundImage s).

(** The run of a generate action whose batch produced [generatedImages]. *)
Definition succeededRun (now : Z) (s : State)
    (tasks : list (Promise.t GeneratedImage.t)) (generatedImages : list string)
  : Run.t :=
  let item := historyItemOf now s generatedImages in
  Run.mk
    (setAppState AppState.Result
       (setResultImages generatedImages
          (setHistory (fun prev => firstn 10 (item :: prev)) (setError None s))))
    ([CallSetError None; CallSetAppState AppState.Loading]
       ++ map SendRequest (concat (map Promise.sent tasks))
       ++ [CallSetHistory item; CallSetResultImages generatedImages;
           CallSetAppState AppState.Result]).

(** ** Sample sessions *)

(** A session that fills character mode and asks for three images. *)
Definition threeImagesSession : list action :=
  [PickFile Slot.character (Some (File.mk "image/jpeg" "/9j/4AAQSkZJRg==" true));
   PickFile Slot.product (Some (File.mk "image/png" "iVBORw0KGgo=" true));
   PickFile Slot.outfit (Some (File.mk "image/webp" "UklGRh4AAABXRUJQ" true));
   TypePrompt "holding the bottle";
   ClickNumberOfImages 2].

(** Eleven generations, each followed by Continue, with ids 1 to 11. *)
Definition elevenGenerations : list action :=
  [ClickMode Mode.product;
   PickFile Slot.product (Some (File.mk "image/png" "iVBORw0KGgo=" true));
   TypePrompt "on a marble countertop"]
  ++ flat_map (fun k => [ClickGenerate (fun _ => alwaysImage 1) (Z.of_nat k);
                         ClickContinue])
              (seq 1 11).

(** ** Occurrences in strings *)

(** The literal that introduces the user's scene in the template without a
    background image. *)
Definition sceneMarker : string := "USER SCENE DESCRIPTION".

(** The character [c] occurs in [s]. *)
Fixpoint charIn (c : ascii) (s : string) : bool :=
  match s with
  | EmptyString => false
  | String a r => Ascii.eqb a c || charIn c r
  end.

(** No character of [s] occurs in [lit]. *)
Fixpoint freeOf (lit s : string) : bool :=
  match s with
  | EmptyString => true
  | String c r => negb (charIn c lit) && freeOf lit r
  end.

(** ** Decimal numerals *)




(** ** Further vocabulary *)

(** The prefix that the generation wrapper of a mode puts before the
    message of a failure. *)
Definition failurePrefix (m : Mode.t) : string :=
  match m with
  | Mode.character => "Failed to generate image. "
  | Mode.product => "Failed to generate product concept. "
  end.

(** The inputs that a history item recorded pass the validation of
    [handleGenerate]. *)
Definition itemComplete (item : HistoryItem.t) : Prop :=
  match HistoryItem.mode item with
  | Mode.character =>
      Js.truthyOpt (HistoryItem.characterImage item) = true /\
      Js.truthyOpt (HistoryItem.productImage item) = true
  | Mode.product =>
      Js.truthyOpt (HistoryItem.productImage item) = true /\
      (Js.trim (HistoryItem.prompt item) <> EmptyString \/
       Js.truthyOpt (HistoryItem.backgroundImage item) = true)
  end.

(** What every archived item satisfies. *)
Definition itemOk (item : HistoryItem.t) : Prop :=
  itemComplete item /\
  1 <= length (HistoryItem.images item) <= 6 /\
  Forall (fun url => Js.startsWith "data:" url = true) (HistoryItem.images item).

(** What every state of a session satisfies. *)
Definition wellFormed (s : State) : Prop :=
  1 <= numberOfImages s <= 6 /\
  In (aspectRatio s) ["1:1"; "3:4"; "4:3"; "custom"] /\
  (0 <= customWidth s)%Z /\ (0 <= customHeight s)%Z /\
  (appState s = AppState.Idle \/ appState s = AppState.Result) /\
  (appState s = AppState.Result -> 1 <= length (resultImages s) <= 6) /\
  Forall (fun url => Js.startsWith "data:" url = true) (resultImages s) /\
  Forall itemOk (history s).

(** Two states hold the same inputs of a generation. *)
Definition sameInputs (s s' : State) : Prop :=
  mode s' = mode s /\
  characterImage s' = characterImage s /\ productImage s' = productImage s /\
  outfitImage s' = outfitImage s /\ backgroundImage s' = backgroundImage s /\
  characterPrompt s' = characterPrompt s /\ productPrompt s' = productPrompt s /\
  numberOfImages s' = numberOfImages s /\ aspectRatio s' = aspectRatio s /\
  customWidth s' = customWidth s /\ customHeight s' = customHeight s.

(** The task fulfils, or it settles strictly after time [t]. *)
Definition fulfilsOrSettlesAfter {A : Type} (t : nat) (task : Promise.t A) : Prop :=
  Js.succeeded (Promise.settled task) = true \/ t < Promise.settledAt task.

(** The literal that introduces the user's text in the three templates that
    make it optional. *)
Definition requestMarker : string := "ADDITIONAL USER REQUEST".

(** [lit] cannot occur in, or across the ends of, an aspect-ratio clause:
    it contains none of the characters [a ( ) : - + . e] and no digit, and
    it occurs in none of the fixed texts between the first letter and the
    closing parenthesis of a clause, nor in [Infinity]. *)
Definition foreignToSizes (lit : string) : bool :=
  freeOf lit "a():-+.e0123456789"
  && negb (Js.includes lit "Infinity")
  && negb (Js.includes lit " square (1:1")
  && negb (Js.includes lit " portrait (3:4")
  && negb (Js.includes lit " landscape (4:3")
  && negb (Js.includes lit " (custom")
  && negb (Js.includes lit " ").

(** The keys pressed on an open zoom modal, in order. *)
Definition pressKeys (keys : list string) (m : ZoomModal.t) : ZoomModal.t :=
  fold_left (fun m key => ZoomModal.handleKeyDown key m) keys m.

(** * Properties *)

(** ** Aspect-ratio clause *)

(** Numbers print in decimal. *)
Example numberToString_1024 : Js.numberToString 1024 = "1024".
Proof. reflexivity. Qed.





(** *** Rounding to a Number and printing it *)

Section NumberRounding.

Local Open Scope Z_scope.







End NumberRounding.



(** Numbers as JavaScript prints them: digits below 2^53; beyond, the
    shortest digits of the nearest Number, filled up with zeros; from
    10^21 on the exponent form; [Infinity] from 2^1024 - 2^970 on. *)
Example numberToString_forms :
  Js.numberToString 0 = "0" /\
  Js.numberToString (2 ^ 53 - 1) = "9007199254740991" /\
  Js.numberToString (2 ^ 53 + 1) = "9007199254740992" /\
  Js.numberToString (2 ^ 53 + 3) = "9007199254740996" /\
  Js.numberToString (2 ^ 64) = "18446744073709552000" /\
  Js.numberToString 123456789012345678901 = "123456789012345680000" /\
  Js.numberToString (10 ^ 21 - 1) = "1e+21" /\
  Js.numberToString (10 ^ 21) = "1e+21" /\
  Js.numberToString (10 ^ 23) = "1e+23" /\
  Js.numberToString 123456789012345678901234567890 = "1.2345678901234568e+29" /\
  Js.numberToString (2 ^ 1023) = "8.98846567431158e+307" /\
  Js.numberToString (2 ^ 1024 - 2 ^ 970 - 1) = "1.7976931348623157e+308" /\
  Js.numberToString (2 ^ 1024 - 2 ^ 970) = "Infinity" /\
  Js.numberToString (-1024) = "-1024".
Proof. vm_compute. repeat split. Qed.



(** ** Start over *)

(** C10: [handleStartOver] puts the application back to [Idle], clears the
    four images, both prompts, the result images and the error, resets the
    number of images to 1 and the aspect ratio to [1:1], and leaves the
    history list as it was. *)
Theorem handleStartOver_resets_all_but_history (s : State) :
  let s' := handleStartOver s in
  appState s' = AppState.Idle /\
  characterImage s' = None /\ productImage s' = None /\
  outfitImage s' = None /\ backgroundImage s' = None /\
  characterPrompt s' = EmptyString /\ productPrompt s' = EmptyString /\
  resultImages s' = [] /\ error s' = None /\
  numberOfImages s' = 1 /\ aspectRatio s' = "1:1" /\
  history s' = history s.
Proof. repeat split. Qed.

(** ** Reading the model's response *)

(** [find] returns the first element that passes the test. *)
Lemma find_first {A : Type} (f : A -> bool) (l : list A) (x : A) :
  find f l = Some x <->
  exists pre post,
    l = pre ++ x :: post /\ f x = true /\ (forall y, In y pre -> f y = false).
Proof.
  split.
  - induction l as [|a l IH]; simpl; [discriminate|].
    destruct (f a) eqn:Ha.
    + intros [= <-]. exists [], l. repeat split; [assumption | intros y []].
    + intros H. destruct (IH H) as (pre & post & -> & Hx & Hpre).
      exists (a :: pre), post. repeat split; [assumption|].
      intros y [<- | Hy]; [assumption | auto].
  - intros (pre & post & -> & Hx & Hpre).
    induction pre as [|a pre IH]; simpl.
    + now rewrite Hx.
    + rewrite (Hpre a (or_introl eq_refl)). apply IH.
      intros y Hy. apply Hpre. now right.
Qed.

Lemma find_absent {A : Type} (f : A -> bool) (l : list A) :
  find f l = None <-> (forall y, In y l -> f y = false).
Proof.
  split.
  - intros H y Hy. exact (find_none f l H y Hy).
  - induction l as [|a l IH]; simpl; [reflexivity|].
    intros H. rewrite (H a (or_introl eq_refl)). apply IH.
    intros y Hy. apply H. now right.
Qed.

(** C7, as the code has it: for a call that resolves with a response,
    [executeImageGeneration] returns an image exactly when the FIRST part
    that has an [inlineData] field carries non-empty [data] (parts after it
    are not looked at), and the image is that part's [data] and [mimeType].
    In every other case it throws an [Error] whose message is
    [Invalid response from model. No parts found.] when the response has no
    parts list, and [Model did not return an image. Response: ] followed
    by the first non-empty text of the response, or by [<no text>]. *)
Theorem executeImageGeneration_first_inline_part
    (t : nat) (response : Response.t) (request : list Part.t) :
  let p := executeImageGeneration (respondsWith t response) request in
  (forall image,
      Promise.settled p = Js.Ok image <->
      exists parts pre part post blob,
        Response.responseParts response = Some parts /\
        parts = pre ++ part :: post /\
        (forall q, In q pre -> Part.inlineData q = None) /\
        Part.inlineData part = Some blob /\
        Blob.data blob = Some (GeneratedImage.data image) /\
        GeneratedImage.data image <> EmptyString /\
        GeneratedImage.mimeType image = Blob.mimeType blob) /\
  (forall e,
      Promise.settled p = Js.Throw e ->
      (Response.responseParts response = None /\
       e = Js.JsError "Invalid response from model. No parts found.") \/
      (exists parts explanation,
          Response.responseParts response = Some parts /\
          quotedText explanation parts /\
          e = Js.JsError
                ("Model did not return an image. Response: " +:+ explanation))).
Proof.
  cbn zeta. unfold executeImageGeneration, respondsWith; cbn [Promise.settled Api.reply_].
  unfold readResponse.
  destruct (Response.responseParts response) as [parts|] eqn:Hparts.
  2:{ split.
      - intros image; split; [discriminate|].
        intros (parts & _ & _ & _ & _ & [=] & _).
      - intros e [= <-]. left. split; reflexivity. }
  set (hasInline := fun p : Part.t => Js.present (Part.inlineData p)).
  set (hasText := fun p : Part.t => Js.truthyOpt (Part.text p)).
  assert (Hthrow : forall e,
    Js.Throw (Js.JsError
      ("Model did not return an image. Response: " +:+
       match match find hasText parts with
             | Some p => Part.text p
             | None => None
             end with
       | Some t0 => t0
       | None => "<no text>"
       end)) = Js.Throw (A := GeneratedImage.t) e ->
    exists parts0 explanation,
      Some parts = Some parts0 /\ quotedText explanation parts0 /\
      e = Js.JsError ("Model did not return an image. Response: " +:+ explanation)).
  { intros e [= <-].
    destruct (find hasText parts) as [p|] eqn:Hfind.
    - apply find_first in Hfind as (pre & post & -> & Hp & Hpre).
      unfold hasText in Hp.
      destruct (Part.text p) as [txt|] eqn:Htxt; [|discriminate].
      exists (pre ++ p :: post), txt. repeat split.
      left. exists pre, p, post. repeat split; try assumption.
      intros ->. discriminate.
    - exists parts, "<no text>". repeat split.
      right. split; [reflexivity|].
      intros q Hq. exact (proj1 (find_absent hasText parts) Hfind q Hq). }
  destruct (find hasInline parts) as [part|] eqn:Hfind.
  - pose proof (proj1 (find_first hasInline parts part) Hfind)
      as (pre & post & Hsplit & Hpart & Hpre).
    assert (Hpre' : forall q, In q pre -> Part.inlineData q = None).
    { intros q Hq. specialize (Hpre q Hq). unfold hasInline in Hpre.
      destruct (Part.inlineData q); [discriminate | reflexivity]. }
    assert (Huniq : forall pre2 part2 post2 blob2,
      parts = pre2 ++ part2 :: post2 ->
      (forall q, In q pre2 -> Part.inlineData q = None) ->
      Part.inlineData part2 = Some blob2 -> part2 = part).
    { intros pre2 part2 post2 blob2 H2 Hpre2 Hblob2.
      assert (Hf2 : find hasInline parts = Some part2).
      { apply find_first. exists pre2, post2. repeat split; [assumption | |].
        - unfold hasInline. now rewrite Hblob2.
        - intros q Hq. unfold hasInline. now rewrite (Hpre2 q Hq). }
      congruence. }
    destruct part as [[[[[|c d]|] mt]|] txt]; split;
      try (intros e He; right; apply Hthrow; exact He).
    + intros image; split; [discriminate|].
      intros (parts0 & pre2 & part2 & post2 & blob2 & [= <-] & H2 & Hpre2 & Hb & Hd & Hne & _).
      rewrite (Huniq _ _ _ _ H2 Hpre2 Hb) in Hb. cbn in Hb.
      injection Hb as <-. cbn in Hd. injection Hd as Hd. now rewrite <- Hd in Hne.
    + intros image; split.
      * intros [= <-].
        exists parts, pre,
          (Part.mk (Some (Blob.mk (Some (String c d)) mt)) txt), post,
          (Blob.mk (Some (String c d)) mt).
        repeat split; [exact Hsplit | exact Hpre' | discriminate].
      * intros (parts0 & pre2 & part2 & post2 & blob2 & [= <-] & H2 & Hpre2 & Hb & Hd & Hne & Hm).
        rewrite (Huniq _ _ _ _ H2 Hpre2 Hb) in Hb. cbn in Hb.
        injection Hb as <-. cbn in Hd, Hm. injection Hd as Hd.
        destruct image as [d' m']; cbn in *. now subst.
    + intros e [=].
    + intros image; split; [discriminate|].
      intros (parts0 & pre2 & part2 & post2 & blob2 & [= <-] & H2 & Hpre2 & Hb & Hd & _).
      rewrite (Huniq _ _ _ _ H2 Hpre2 Hb) in Hb. cbn in Hb.
      injection Hb as <-. discriminate.
    + intros image; split; [discriminate|].
      intros (parts0 & pre2 & part2 & post2 & blob2 & [= <-] & H2 & Hpre2 & Hb & _).
      rewrite (Huniq _ _ _ _ H2 Hpre2 Hb) in Hb. discriminate.
  - split.
    + intros image; split; [discriminate|].
      intros (parts0 & pre2 & part2 & post2 & blob2 & [= <-] & H2 & Hpre2 & Hb & _).
      pose proof (proj1 (find_absent hasInline parts) Hfind part2) as Habs.
      rewrite H2 in Habs. specialize (Habs (in_elt part2 pre2 post2)).
      unfold hasInline in Habs. now rewrite Hb in Habs.
    + intros e He. right. apply Hthrow. exact He.
Qed.

(** C7 fails as stated: a response whose first [inlineData] part has empty
    [data] and whose second part carries an image does contain a part with
    inline image data, yet [executeImageGeneration] throws. *)
Lemma executeImageGeneration_ignores_later_image :
  let empty := Part.mk (Some (Blob.mk (Some EmptyString) (Some "image/png"))) None in
  let image := Part.mk (Some (Blob.mk (Some "iVBORw0KGgo=") (Some "image/png"))) None in
  let response := responseWith [empty; image] in
  (exists part blob d,
      In part [empty; image] /\ Part.inlineData part = Some blob /\
      Blob.data blob = Some d /\ d <> EmptyString) /\
  Promise.settled (executeImageGeneration (respondsWith 0 response) []) =
    Js.Throw (Js.JsError "Model did not return an image. Response: <no text>").
Proof.
  split; [|reflexivity].
  eexists _, _, _. split; [right; left; reflexivity|].
  repeat split. discriminate.
Qed.

(** ** Image intake *)

Lemma stripPrefix_spec (p s r : string) :
  Js.stripPrefix p s = Some r <-> s = p +:+ r.
Proof.
  revert s. induction p as [|a p IH]; intros s; cbn.
  - split; [intros [= ->] | intros ->]; reflexivity.
  - destruct s as [|b s].
    + split; discriminate.
    + destruct (Ascii.eqb_spec a b) as [-> | Hne].
      * rewrite IH. split; [intros -> | intros [= ->]]; reflexivity.
      * split; [discriminate | intros [= Hab _]; congruence].
Qed.

(** Two texts that run up to the same separator are compared up to it. *)
Lemma stripPrefix_separator (p t q r : string) (c : ascii) :
  charIn c p = false -> charIn c t = false ->
  Js.stripPrefix (p +:+ String c q) (t +:+ String c r)
  = if String.eqb p t then Js.stripPrefix q r else None.
Proof.
  revert t. induction p as [|a p IH]; intros t Hp Ht.
  - destruct t as [|b t]; cbn.
    + now rewrite Ascii.eqb_refl.
    + cbn in Ht. apply orb_false_elim in Ht as [Hb _].
      destruct (Ascii.eqb_spec c b) as [-> | _]; [|reflexivity].
      rewrite Ascii.eqb_refl in Hb. discriminate.
  - cbn in Hp. apply orb_false_elim in Hp as [Ha Hp].
    destruct t as [|b t]; cbn.
    + now rewrite Ha.
    + cbn in Ht. apply orb_false_elim in Ht as [_ Ht].
      destruct (Ascii.eqb a b); [now apply IH | reflexivity].
Qed.

(** C9, as the code has it: a readable, non-empty file that passes the
    picker's filter [image/*] is stored, on upload into any slot, as the
    preview [data:TYPE;base64,BYTES] with the file's own type. The preview
    begins with one of the three prefixes exactly when the type is
    [image/jpeg], [image/png] or [image/webp]; [parseDataUrl] then decodes
    it back into the file's type and base64 text. For every other image
    type [parseDataUrl] refuses the preview with [Invalid image data URL.].
    (A MIME type holds no semicolon, and base64 text no line break.) *)
Theorem upload_preview_is_parsable
    (slot : Slot.t) (file : File.t) (s : State)
    (Hread : File.readable file = true)
    (Haccepted : File.accepted file = true)
    (Htype : charIn ";" (File.type file) = false)
    (Hbytes : Js.noLineTerminator (File.base64Bytes file) = true)
    (Hnonempty : File.base64Bytes file <> EmptyString) :
  let supported := ["image/jpeg"; "image/png"; "image/webp"] in
  let s' := step (PickFile slot (Some file)) s in
  let url := "data:" +:+ File.type file +:+ ";base64," +:+ File.base64Bytes file in
  slotImage slot s' = Some url /\
  (acceptedPrefix url = true <-> In (File.type file) supported) /\
  (In (File.type file) supported ->
   parseDataUrl url =
     Js.Ok (ImagePayload.mk (File.base64Bytes file) (File.type file))) /\
  (~ In (File.type file) supported ->
   parseDataUrl url = Js.Throw (Js.JsError "Invalid image data URL.")).
Proof.
  destruct file as [type bytes readable].
  cbn [File.readable File.type File.base64Bytes] in *. subst readable.
  unfold File.accepted, Js.startsWith in Haccepted. cbn [File.type] in Haccepted.
  destruct (Js.stripPrefix "image/" type) as [sub|] eqn:Hsub; [|discriminate].
  apply stripPrefix_spec in Hsub. subst type. clear Haccepted Hnonempty.
  cbn in Htype.
  assert (Hstrip : forall subtype,
    charIn ";" subtype = false ->
    Js.stripPrefix (subtype +:+ ";base64,") (sub +:+ ";base64," +:+ bytes)
    = if String.eqb subtype sub then Some bytes else None).
  { intros subtype Hsubtype.
    change (subtype +:+ ";base64,") with (subtype +:+ String ";" "base64,").
    change (sub +:+ ";base64," +:+ bytes)
      with (sub +:+ String ";" ("base64," +:+ bytes)).
    rewrite stripPrefix_separator by assumption.
    destruct (String.eqb subtype sub); reflexivity. }
  cbv zeta. split; [destruct slot; reflexivity|].
  assert (Hprefix :
    acceptedPrefix ("data:" +:+ ("image/" +:+ sub) +:+ ";base64," +:+ bytes)
    = String.eqb "jpeg" sub || String.eqb "png" sub || String.eqb "webp" sub).
  { unfold acceptedPrefix, Js.startsWith.
    change (Js.stripPrefix "data:image/jpeg;base64,"
              ("data:" +:+ ("image/" +:+ sub) +:+ ";base64," +:+ bytes))
      with (Js.stripPrefix ("jpeg" +:+ ";base64,") (sub +:+ ";base64," +:+ bytes)).
    change (Js.stripPrefix "data:image/png;base64,"
              ("data:" +:+ ("image/" +:+ sub) +:+ ";base64," +:+ bytes))
      with (Js.stripPrefix ("png" +:+ ";base64,") (sub +:+ ";base64," +:+ bytes)).
    change (Js.stripPrefix "data:image/webp;base64,"
              ("data:" +:+ ("image/" +:+ sub) +:+ ";base64," +:+ bytes))
      with (Js.stripPrefix ("webp" +:+ ";base64,") (sub +:+ ";base64," +:+ bytes)).
    rewrite !Hstrip by reflexivity.
    destruct (String.eqb "jpeg" sub), (String.eqb "png" sub),
      (String.eqb "webp" sub); reflexivity. }
  assert (Hparse :
    parseDataUrl ("data:" +:+ ("image/" +:+ sub) +:+ ";base64," +:+ bytes)
    = if String.eqb "jpeg" sub || String.eqb "png" sub || String.eqb "webp" sub
      then Js.Ok (ImagePayload.mk bytes ("image/" +:+ sub))
      else Js.Throw (Js.JsError "Invalid image data URL.")).
  { unfold parseDataUrl, matchDataUrl.
    change (Js.stripPrefix "data:image/"
              ("data:" +:+ ("image/" +:+ sub) +:+ ";base64," +:+ bytes))
      with (Some (sub +:+ ";base64," +:+ bytes)).
    cbv beta zeta iota. rewrite !Hstrip by reflexivity.
    destruct (String.eqb_spec "jpeg" sub) as [<- | _];
      [rewrite Hbytes; reflexivity|].
    destruct (String.eqb_spec "png" sub) as [<- | _];
      [rewrite Hbytes; reflexivity|].
    destruct (String.eqb_spec "webp" sub) as [<- | _];
      [rewrite Hbytes; reflexivity | reflexivity]. }
  assert (Hin :
    In ("image/" +:+ sub) ["image/jpeg"; "image/png"; "image/webp"] <->
    String.eqb "jpeg" sub || String.eqb "png" sub || String.eqb "webp" sub = true).
  { split.
    - intros [H | [H | [H | []]]]; injection H as <-; reflexivity.
    - intros H. apply orb_prop in H as [H | H]; [apply orb_prop in H as [H | H]|];
        apply String.eqb_eq in H; subst sub; cbn; auto. }
  rewrite Hprefix, Hparse. split; [symmetry; exact Hin|]. split.
  - intros H. apply Hin in H. now rewrite H.
  - intros H.
    destruct (String.eqb "jpeg" sub || String.eqb "png" sub || String.eqb "webp" sub);
      [exfalso; apply H, Hin; reflexivity | reflexivity].
Qed.

(** The statement of C9 for a PNG file uploaded as the product image. *)
Lemma upload_preview_is_parsable_witness :
  let file := File.mk "image/png" "iVBORw0KGgo=" true in
  let supported := ["image/jpeg"; "image/png"; "image/webp"] in
  let s' := step (PickFile Slot.product (Some file)) initialState in
  let url := "data:image/png;base64,iVBORw0KGgo=" in
  slotImage Slot.product s' = Some url /\
  (acceptedPrefix url = true <-> In "image/png" supported) /\
  (In "image/png" supported ->
   parseDataUrl url = Js.Ok (ImagePayload.mk "iVBORw0KGgo=" "image/png")) /\
  (~ In "image/png" supported ->
   parseDataUrl url = Js.Throw (Js.JsError "Invalid image data URL.")).
Proof.
  apply (upload_preview_is_parsable Slot.product
           (File.mk "image/png" "iVBORw0KGgo=" true) initialState).
  - reflexivity.
  - reflexivity.
  - reflexivity.
  - reflexivity.
  - discriminate.
Defined.

(** C9 fails as stated: the picker's filter [image/*] lets a GIF through;
    its stored preview begins with [data:image/gif;base64,], which is none
    of the three prefixes, and [parseDataUrl] rejects it -- a later Generate
    ends with the error [Invalid image data URL.] and sends nothing. *)
Lemma upload_gif_preview_not_parsable :
  let file := File.mk "image/gif" "R0lGODlhAQABAAAAACw=" true in
  let s' := run [ClickMode Mode.product; PickFile Slot.product (Some file);
                 TypePrompt "on a marble countertop"] initialState in
  File.accepted file = true /\
  slotImage Slot.product s' = Some "data:image/gif;base64,R0lGODlhAQABAAAAACw=" /\
  acceptedPrefix "data:image/gif;base64,R0lGODlhAQABAAAAACw=" = false /\
  parseDataUrl "data:image/gif;base64,R0lGODlhAQABAAAAACw=" =
    Js.Throw (Js.JsError "Invalid image data URL.") /\
  error (run [ClickGenerate (fun _ => alwaysImage 1) 0%Z] s') =
    Some "Invalid image data URL." /\
  requested (effects [ClickGenerate (fun _ => alwaysImage 1) 0%Z] s') = [].
Proof. repeat split. Qed.

(** ** Validation before leaving [Idle] *)

(** C3: when the inputs are incomplete -- in character mode the character
    or the product image is missing; in product mode the product image is
    missing, or the trimmed prompt is empty and there is no background image
    -- [handleGenerate] sets a non-empty error, sends no request and calls
    [setAppState] not at all: the state is never [Loading] and an [Idle]
    application stays [Idle]. Nothing but the error slot changes. *)
Theorem handleGenerate_rejects_incomplete_input
    (api : nat -> Api.endpoint) (now : Z) (s : State)
    (Hinvalid :
      (mode s = Mode.character /\
       (missing (characterImage s) \/ missing (productImage s))) \/
      (mode s = Mode.product /\
       (missing (productImage s) \/
        (Js.trim (productPrompt s) = EmptyString /\ missing (backgroundImage s))))) :
  let r := handleGenerate api now s in
  (exists message,
      message <> EmptyString /\ Run.state r = setError (Some message) s) /\
  requested (Run.log r) = [] /\
  appStatesSet (Run.log r) = [] /\
  appState (Run.state r) = appState s /\
  (appState s = AppState.Idle -> appState (Run.state r) = AppState.Idle).
Proof.
  assert (Hfail : forall message : string, message <> EmptyString ->
    let r := Run.perform (CallSetError (Some message)) (setError (Some message))
               (Run.perform (CallSetError None) (setError None) (Run.start s)) in
    (exists message,
        message <> EmptyString /\ Run.state r = setError (Some message) s) /\
    requested (Run.log r) = [] /\
    appStatesSet (Run.log r) = [] /\
    appState (Run.state r) = appState s /\
    (appState s = AppState.Idle -> appState (Run.state r) = AppState.Idle)).
  { intros message Hne. cbn. repeat split; try (intros H; exact H).
    exists message. split; [exact Hne | reflexivity]. }
  unfold missing in Hinvalid. cbv zeta. unfold handleGenerate.
  destruct Hinvalid as [[Hmode Himg] | [Hmode Himg]]; rewrite Hmode;
    cbn [Mode.eqb andb].
  - assert (Hc : negb (Js.truthyOpt (characterImage s))
                 || negb (Js.truthyOpt (productImage s)) = true).
    { destruct Himg as [-> | ->]; [reflexivity | apply orb_true_r]. }
    rewrite Hc. apply Hfail. discriminate.
  - destruct (Js.truthyOpt (productImage s)) eqn:Hproduct; cbn [negb].
    + destruct Himg as [Himg | [Htrim Hbg]]; [discriminate|].
      unfold currentPromptOf. rewrite Hmode, Htrim, Hbg. cbn [Js.truthy negb andb].
      apply Hfail. discriminate.
    + apply Hfail. discriminate.
Qed.

(** The statement of C3 in product mode with a product image, a prompt of
    blanks and no background image. *)
Lemma handleGenerate_rejects_incomplete_input_witness :
  let s := run [ClickMode Mode.product;
                PickFile Slot.product (Some (File.mk "image/png" "iVBORw0KGgo=" true));
                TypePrompt "   "] initialState in
  let r := handleGenerate (fun _ => alwaysImage 1) 0%Z s in
  (exists message,
      message <> EmptyString /\ Run.state r = setError (Some message) s) /\
  requested (Run.log r) = [] /\
  appStatesSet (Run.log r) = [] /\
  appState (Run.state r) = appState s /\
  (appState s = AppState.Idle -> appState (Run.state r) = AppState.Idle).
Proof.
  apply (handleGenerate_rejects_incomplete_input (fun _ => alwaysImage 1) 0%Z
           (run [ClickMode Mode.product;
                 PickFile Slot.product
                   (Some (File.mk "image/png" "iVBORw0KGgo=" true));
                 TypePrompt "   "] initialState)).
  right. split; [reflexivity|]. right. split; reflexivity.
Defined.

(** ** The batch of a generate action *)

(** The three ways a generate action can go. *)
Lemma handleGenerate_cases (api : nat -> Api.endpoint) (now : Z) (s : State) :
  (~ complete s /\
   exists message, message <> EmptyString /\
     handleGenerate api now s =
       Run.mk (setError (Some message) s)
              [CallSetError None; CallSetError (Some message)])
  \/ (complete s /\
      exists tasks err, tryBlock api s = (tasks, Js.Throw err) /\
        handleGenerate api now s = failedRun s tasks err)
  \/ (complete s /\
      exists tasks generatedImages,
        tryBlock api s = (tasks, Js.Ok generatedImages) /\
        handleGenerate api now s = succeededRun now s tasks generatedImages).
Proof.
  assert (Hbatch : complete s ->
    (let r := Run.perform (CallSetAppState AppState.Loading)
                (setAppState AppState.Loading)
                (Run.perform (CallSetError None) (setError None) (Run.start s)) in
     let (generationTasks, tried) := tryBlock api s in
     let r := Run.send (concat (map Promise.sent generationTasks)) r in
     match tried with
     | Js.Ok generatedImages =>
         let newHistoryItem :=
           HistoryItem.mk now generatedImages (currentPromptOf s) (mode s)
             (characterImage s) (productImage s) (outfitImage s)
             (backgroundImage s) in
         let r := Run.perform (CallSetHistory newHistoryItem)
                    (setHistory (fun prev => firstn 10 (newHistoryItem :: prev))) r in
         let r := Run.perform (CallSetResultImages generatedImages)
                    (setResultImages generatedImages) r in
         Run.perform (CallSetAppState AppState.Result)
           (setAppState AppState.Result) r
     | Js.Throw err =>
         let message := Js.messageOr "An unknown error occurred." err in
         let r := Run.perform (CallSetError (Some message))
                    (setError (Some message)) r in
         Run.perform (CallSetAppState AppState.Idle)
           (setAppState AppState.Idle) r
     end) = handleGenerate api now s ->
    (complete s /\
      exists tasks err, tryBlock api s = (tasks, Js.Throw err) /\
        handleGenerate api now s = failedRun s tasks err)
    \/ (complete s /\
      exists tasks generatedImages,
        tryBlock api s = (tasks, Js.Ok generatedImages) /\
        handleGenerate api now s = succeededRun now s tasks generatedImages)).
  { intros Hc <-. cbv zeta.
    destruct (tryBlock api s) as [tasks [generatedImages | err]].
    - right. split; [exact Hc|]. exists tasks, generatedImages.
      split; [reflexivity|].
      unfold succeededRun, Run.perform, Run.send, Run.start, historyItemOf; cbn.
      f_equal. now rewrite <- !app_assoc.
    - left. split; [exact Hc|]. exists tasks, err.
      split; [reflexivity|].
      unfold failedRun, Run.perform, Run.send, Run.start, shownMessage; cbn.
      f_equal. now rewrite <- !app_assoc. }
  assert (Hfail : forall message : string, message <> EmptyString ->
    exists message0, message0 <> EmptyString /\
      Run.perform (CallSetError (Some message)) (setError (Some message))
        (Run.perform (CallSetError None) (setError None) (Run.start s)) =
      Run.mk (setError (Some message0) s)
             [CallSetError None; CallSetError (Some message0)]).
  { intros message Hne. exists message. split; [exact Hne | reflexivity]. }
  unfold complete in *. unfold handleGenerate in *.
  destruct (mode s) eqn:Hmode; cbn [Mode.eqb andb] in *.
  - destruct (Js.truthyOpt (characterImage s)); cbn [negb orb] in *.
    + destruct (Js.truthyOpt (productImage s)); cbn [negb] in *.
      * right. apply Hbatch; [split; reflexivity | reflexivity].
      * left. split; [intros [_ [=]] | apply Hfail; discriminate].
    + left. split; [intros [[=] _] | apply Hfail; discriminate].
  - destruct (Js.truthyOpt (productImage s)); cbn [negb andb] in *.
    + unfold currentPromptOf in *. rewrite Hmode in *.
      destruct (Js.trim (productPrompt s)) eqn:Htrim; cbn [Js.truthy negb andb] in *.
      * destruct (Js.truthyOpt (backgroundImage s)); cbn [negb] in *.
        -- right. apply Hbatch; [split; [reflexivity | now right] | reflexivity].
        -- left. split; [|apply Hfail; discriminate].
           intros [_ [H | [=]]]. now apply H.
      * right. apply Hbatch; [|reflexivity].
        split; [reflexivity | left; discriminate].
    + left. split; [intros [[=] _] | apply Hfail; discriminate].
Qed.

Lemma append_nonempty (prefix rest : string) :
  prefix <> EmptyString -> prefix +:+ rest <> EmptyString.
Proof. destruct prefix; [congruence | discriminate]. Qed.

(** Closes a goal [exists m, e = Js.JsError m /\ m <> EmptyString] where [e]
    is an [Error] built on the spot. *)
Ltac error_with_message :=
  eexists; split;
  [reflexivity | first [discriminate | now apply append_nonempty]].

(** Closes the left case of [generationTask_uniform] from the fact [H] that
    a slot failed to decode. *)
Ltac every_turn_throws H :=
  let m := fresh "m" in
  let Hm := fresh "Hm" in
  left; destruct H as (m & -> & Hm); now exists m.

Lemma parseSlot_thrown (image : option string) (e : Js.thrown) :
  parseSlot image = Js.Throw e -> exists m, e = Js.JsError m /\ m <> EmptyString.
Proof.
  unfold parseSlot, parseDataUrl.
  destruct image as [dataUrl|]; [destruct (matchDataUrl dataUrl) as [[? ?]|]|];
    intros [= <-]; error_with_message.
Qed.

Lemma parseOptionalSlot_thrown (image : option string) (e : Js.thrown) :
  parseOptionalSlot image = Js.Throw e ->
  exists m, e = Js.JsError m /\ m <> EmptyString.
Proof.
  unfold parseOptionalSlot. destruct (Js.truthyOpt image); [|discriminate].
  destruct (parseSlot image) eqn:Hp; [discriminate|].
  intros [= <-]. exact (parseSlot_thrown _ _ Hp).
Qed.

(** What a task settles with: an image with non-empty data, or an [Error]
    whose message starts with the wrapper's prefix. *)
Lemma rethrow_settled (prefix : string) (call : Api.endpoint) (parts : list Part.t) :
  prefix <> EmptyString ->
  let task := rethrow prefix (executeImageGeneration call parts) in
  Promise.sent task = [parts] /\
  (forall image, Promise.settled task = Js.Ok image ->
                 Js.truthy (GeneratedImage.data image) = true) /\
  (forall e, Promise.settled task = Js.Throw e ->
             exists m, e = Js.JsError m /\ m <> EmptyString).
Proof.
  intros Hne. cbn zeta. unfold rethrow, executeImageGeneration; cbn.
  split; [reflexivity|].
  destruct (Api.reply_ (call parts)) as [response | e0]; cbn.
  - unfold readResponse.
    destruct (Response.responseParts response) as [responseParts|]; cbn.
    + destruct (find _ responseParts) as [[[[[[|c d]|] mt]|] txt]|]; cbn; split;
        try (intros image [= <-]; reflexivity); try discriminate;
        intros e [= <-]; error_with_message.
    + split; [discriminate|]. intros e [= <-]. error_with_message.
  - split; [discriminate|]. intros e [= <-]. error_with_message.
Qed.

(** Every turn of the loop decodes the same slots: either each turn throws
    the same [Error], or each turn starts the same request on its own
    endpoint. *)
Lemma generationTask_uniform (api : nat -> Api.endpoint) (s : State)
    (currentPrompt : string) :
  (exists m, m <> EmptyString /\
     forall i, generationTask api s currentPrompt i = Js.Throw (Js.JsError m))
  \/ (exists prefix parts, prefix <> EmptyString /\
        forall i, generationTask api s currentPrompt i =
                  Js.Ok (rethrow prefix (executeImageGeneration (api i) parts))).
Proof.
  unfold generationTask.
  destruct (mode s).
  - destruct (parseSlot (characterImage s)) as [c | e] eqn:Hc; cbn.
    2: every_turn_throws (parseSlot_thrown _ _ Hc).
    destruct (parseSlot (productImage s)) as [p | e] eqn:Hp; cbn.
    2: every_turn_throws (parseSlot_thrown _ _ Hp).
    destruct (parseOptionalSlot (outfitImage s)) as [o | e] eqn:Ho; cbn.
    2: every_turn_throws (parseOptionalSlot_thrown _ _ Ho).
    right. unfold generateCharacterPlacementImage.
    eexists _, _. split; [|intros i; reflexivity]. discriminate.
  - destruct (parseSlot (productImage s)) as [p | e] eqn:Hp; cbn.
    2: every_turn_throws (parseSlot_thrown _ _ Hp).
    destruct (parseOptionalSlot (backgroundImage s)) as [o | e] eqn:Ho; cbn.
    2: every_turn_throws (parseOptionalSlot_thrown _ _ Ho).
    right. unfold generateProductConceptImage.
    eexists _, _. split; [|intros i; reflexivity]. discriminate.
Qed.

Lemma generationLoop_throws (api : nat -> Api.endpoint) (s : State)
    (currentPrompt : string) (e : Js.thrown) :
  (forall i, generationTask api s currentPrompt i = Js.Throw e) ->
  forall remaining i tasks,
    generationLoop api s currentPrompt i remaining tasks =
    (tasks, match remaining with O => None | S _ => Some e end).
Proof.
  intros H [|remaining] i tasks; cbn; [reflexivity|]. now rewrite H.
Qed.

Lemma generationLoop_builds (api : nat -> Api.endpoint) (s : State)
    (currentPrompt : string) (f : nat -> Promise.t GeneratedImage.t) :
  (forall i, generationTask api s currentPrompt i = Js.Ok (f i)) ->
  forall remaining i tasks,
    generationLoop api s currentPrompt i remaining tasks =
    (tasks ++ map f (seq i remaining), None).
Proof.
  intros H remaining. induction remaining as [|remaining IH]; intros i tasks; cbn.
  - now rewrite app_nil_r.
  - rewrite H, IH, <- app_assoc. reflexivity.
Qed.

(** *** [Promise.all]

    The tasks of a batch are joined by an all-fulfil, first-rejection
    barrier. *)
Section PromiseAll.

Context {A : Type}.
Implicit Types (tasks : list (Promise.t A)) (best : option (nat * Js.thrown)).

Lemma firstRejection_none (tasks : list (Promise.t A))
    (best : option (nat * Js.thrown)) :
  firstRejection tasks best = None <->
  best = None /\ forall task, In task tasks -> Js.succeeded (Promise.settled task) = true.
Proof.
  revert best. induction tasks as [|task tasks IH]; intros best; cbn [firstRejection].
  - split; [intros ->; split; [reflexivity | intros ? []] | intros [-> _]; reflexivity].
  - destruct (Promise.settled task) as [v | e] eqn:Hs.
    + rewrite IH. split; intros [-> H]; (split; [reflexivity|]).
      * intros t [<- | Ht]; [now rewrite Hs | auto].
      * intros t Ht. apply H. now right.
    + split.
      * destruct best as [[t0 e0]|];
          [destruct (Nat.ltb (Promise.settledAt task) t0)|];
          intros H; apply IH in H; destruct H as [[=] _].
      * intros [_ H]. specialize (H task (or_introl eq_refl)).
        rewrite Hs in H. discriminate.
Qed.

Lemma firstRejection_source (tasks : list (Promise.t A))
    (best : option (nat * Js.thrown)) (t : nat) (e : Js.thrown) :
  firstRejection tasks best = Some (t, e) ->
  best = Some (t, e) \/
  exists task, In task tasks /\ Promise.settled task = Js.Throw e.
Proof.
  revert best. induction tasks as [|task tasks IH]; intros best; cbn [firstRejection].
  - now left.
  - destruct (Promise.settled task) as [v | e1] eqn:Hs.
    + intros H. destruct (IH _ H) as [-> | (task' & Hin & Ht)]; [now left|].
      right. exists task'. split; [now right | assumption].
    + assert (Hnew : firstRejection tasks (Some (Promise.settledAt task, e1)) = Some (t, e) ->
                     exists task0, (task = task0 \/ In task0 tasks) /\
                                   Promise.settled task0 = Js.Throw e).
      { intros H. destruct (IH _ H) as [[= <- <-] | (task' & Hin & Ht)].
        - exists task. split; [now left | assumption].
        - exists task'. split; [now right | assumption]. }
      destruct best as [[t0 e0]|];
        [destruct (Nat.ltb (Promise.settledAt task) t0)|]; intros H.
      * right. now apply Hnew.
      * destruct (IH _ H) as [-> | (task' & Hin & Ht)]; [now left|].
        right. exists task'. split; [now right | assumption].
      * right. now apply Hnew.
Qed.



(** When some task rejects, [Promise.all] rejects, with the reason of one of
    the tasks. *)
Lemma promiseAll_rejects (tasks : list (Promise.t A))
    (task : Promise.t A) (e0 : Js.thrown) :
  In task tasks -> Promise.settled task = Js.Throw e0 ->
  exists task' e,
    promiseAll tasks = Js.Throw e /\ In task' tasks /\
    Promise.settled task' = Js.Throw e.
Proof.
  intros Hin Hs. unfold promiseAll.
  destruct (firstRejection tasks None) as [[t e]|] eqn:Hf.
  - destruct (firstRejection_source _ _ _ _ Hf) as [[=] | (task' & Hin' & Hs')].
    now exists task', e.
  - apply firstRejection_none in Hf as [_ Hf].
    specialize (Hf task Hin). rewrite Hs in Hf. discriminate.
Qed.

(** A rejection of [Promise.all] is the rejection of one of the tasks. *)
Lemma promiseAll_thrown (tasks : list (Promise.t A)) (e : Js.thrown) :
  promiseAll tasks = Js.Throw e ->
  exists task, In task tasks /\ Promise.settled task = Js.Throw e.
Proof.
  unfold promiseAll.
  destruct (firstRejection tasks None) as [[t e']|] eqn:Hf.
  - intros [= <-].
    destruct (firstRejection_source _ _ _ _ Hf) as [[=] | H]. exact H.
  - clear Hf. induction tasks as [|task tasks IH]; cbn; [discriminate|].
    destruct (Promise.settled task) as [v | e0] eqn:Hs; cbn.
    + destruct (Js.mapM _ tasks) as [vs | e1]; cbn; [discriminate|].
      intros [= <-]. destruct (IH eq_refl) as (task' & Hin & Hs').
      exists task'. split; [now right | exact Hs'].
    + intros [= <-]. exists task. split; [now left | exact Hs].
Qed.

End PromiseAll.

(** *** Traces with a block of requests in the middle

    The log of a batch is a few setter calls, the requests of the loop, and
    a few setter calls again; each projection of the trace reads the block
    of requests as a whole. *)
Section TraceWithRequests.

Variables (before after : list effect) (requests : list (list Part.t)).

Let trace : list effect := before ++ map SendRequest requests ++ after.

Lemma flat_map_send {B : Type} (f : effect -> list B) :
  flat_map f trace =
  flat_map f before ++ flat_map (fun parts => f (SendRequest parts)) requests
    ++ flat_map f after.
Proof.
  unfold trace. rewrite !flat_map_app. f_equal. f_equal.
  induction requests as [|x l IH]; cbn; [reflexivity | now rewrite IH].
Qed.

Lemma flat_map_nothing {B C : Type} (l : list C) :
  flat_map (fun _ : C => @nil B) l = [].
Proof. induction l as [|x l IH]; [reflexivity | exact IH]. Qed.

Lemma requested_send :
  requested trace = requested before ++ requests ++ requested after.
Proof.
  unfold requested. rewrite flat_map_send. f_equal. f_equal.
  induction requests as [|x l IH]; cbn; [reflexivity | now rewrite IH].
Qed.

Lemma archived_send : archived trace = archived before ++ archived after.
Proof. unfold archived. now rewrite flat_map_send, flat_map_nothing. Qed.


Lemma resultImagesSet_send :
  resultImagesSet trace = resultImagesSet before ++ resultImagesSet after.
Proof. unfold resultImagesSet. now rewrite flat_map_send, flat_map_nothing. Qed.

End TraceWithRequests.

(** The two shapes of a [try] block: the slots do not decode and the loop
    starts nothing, or every turn starts one request with the same parts. *)
Lemma tryBlock_shape (api : nat -> Api.endpoint) (s : State) :
  (exists m, m <> EmptyString /\
     tryBlock api s =
       ([], match numberOfImages s with
            | O => Js.Ok []
            | S _ => Js.Throw (Js.JsError m)
            end))
  \/ (exists prefix parts, prefix <> EmptyString /\
        let tasks :=
          map (fun i => rethrow prefix (executeImageGeneration (api i) parts))
              (seq 0 (numberOfImages s)) in
        tryBlock api s =
          (tasks, results <- promiseAll tasks ;; Js.mapM toDataUrl results)).
Proof.
  unfold tryBlock.
  destruct (generationTask_uniform api s (currentPromptOf s))
    as [(m & Hm & Hthrow) | (prefix & parts & Hprefix & Hbuild)].
  - left. exists m. split; [exact Hm|].
    rewrite (generationLoop_throws _ _ _ _ Hthrow).
    destruct (numberOfImages s); reflexivity.
  - right. exists prefix, parts. split; [exact Hprefix|].
    rewrite (generationLoop_builds _ _ _ _ Hbuild). reflexivity.
Qed.

Lemma mapM_toDataUrl_thrown (results : list GeneratedImage.t) (e : Js.thrown) :
  Js.mapM toDataUrl results = Js.Throw e ->
  exists m, e = Js.JsError m /\ m <> EmptyString.
Proof.
  induction results as [|x results IH]; cbn; [discriminate|].
  unfold toDataUrl at 1.
  destruct (Js.truthy (GeneratedImage.data x)); cbn.
  - destruct (Js.mapM toDataUrl results); cbn; [discriminate|].
    intros [= <-]. now apply IH.
  - intros [= <-]. eexists. split; [reflexivity | discriminate].
Qed.

Lemma mapM_toDataUrl_ok (results : list GeneratedImage.t) :
  Forall (fun image => Js.truthy (GeneratedImage.data image) = true) results ->
  Js.mapM toDataUrl results = Js.Ok (map dataUrlOf results).
Proof.
  induction 1 as [|x results Hx _ IH]; cbn; [reflexivity|].
  unfold toDataUrl at 1. rewrite Hx, IH. reflexivity.
Qed.

(** The [catch] clause always has something to show. *)
Lemma tryBlock_thrown_message (api : nat -> Api.endpoint) (s : State)
    (tasks : list (Promise.t GeneratedImage.t)) (err : Js.thrown) :
  tryBlock api s = (tasks, Js.Throw err) -> shownMessage err <> EmptyString.
Proof.
  assert (Hmsg : forall e, (exists m, e = Js.JsError m /\ m <> EmptyString) ->
                           shownMessage e <> EmptyString).
  { intros e (m & -> & Hm). exact Hm. }
  destruct (tryBlock_shape api s)
    as [(m & Hm & ->) | (prefix & parts & Hprefix & ->)].
  - destruct (numberOfImages s); intros [= <- <-]. exact Hm.
  - cbv zeta. intros [= <- Htried].
    set (tasks := map _ _) in Htried.
    destruct (promiseAll tasks) as [results | e] eqn:Hall; cbn in Htried.
    + apply Hmsg. now apply (mapM_toDataUrl_thrown results).
    + injection Htried as <-.
      destruct (promiseAll_thrown _ _ Hall) as (task & Hin & Hs).
      apply in_map_iff in Hin as (i & <- & _).
      apply Hmsg.
      exact (proj2 (proj2 (rethrow_settled prefix (api i) parts Hprefix)) _ Hs).
Qed.

Lemma tryBlock_fulfilled (api : nat -> Api.endpoint) (s : State)
    (tasks : list (Promise.t GeneratedImage.t)) (generatedImages : list string) :
  tryBlock api s = (tasks, Js.Ok generatedImages) ->
  exists results,
    promiseAll tasks = Js.Ok results /\
    Js.mapM toDataUrl results = Js.Ok generatedImages.
Proof.
  unfold tryBlock.
  destruct (generationLoop api s (currentPromptOf s) 0 (numberOfImages s) [])
    as [tasks0 [e|]]; [intros [=] | intros [= <- H]].
  destruct (promiseAll tasks0) as [results | e]; [|discriminate].
  now exists results.
Qed.

(** ** All or nothing *)

(** C2: when the inputs pass validation and at least one generation
    request of the batch rejects, [setResultImages] is not called (the slot
    keeps its old value and the page shows no result image), the error is
    set to a non-empty string, the application is back in [Idle], and the
    history is untouched. *)
Theorem handleGenerate_batch_failure
    (api : nat -> Api.endpoint) (now : Z) (s : State)
    (Hcomplete : complete s)
    (Hrejects : exists task e,
        In task (generationTasksOf api s) /\ Promise.settled task = Js.Throw e) :
  let r := handleGenerate api now s in
  resultImagesSet (Run.log r) = [] /\
  resultImages (Run.state r) = resultImages s /\
  displayedImages (Run.state r) = [] /\
  (exists message,
      error (Run.state r) = Some message /\ message <> EmptyString) /\
  appState (Run.state r) = AppState.Idle /\
  archived (Run.log r) = [] /\
  history (Run.state r) = history s.
Proof.
  cbv zeta.
  destruct Hrejects as (task & e & Hin & Hs).
  destruct (handleGenerate_cases api now s) as [[Hno _] | [H | H]].
  - contradiction.
  - destruct H as (_ & tasks & err & Htry & ->).
    unfold failedRun; cbn [Run.state Run.log].
    rewrite resultImagesSet_send, archived_send.
    repeat split.
    exists (shownMessage err). split; [reflexivity|].
    exact (tryBlock_thrown_message _ _ _ _ Htry).
  - exfalso. destruct H as (_ & tasks & images & Htry & _).
    unfold generationTasksOf in Hin. rewrite Htry in Hin; cbn in Hin.
    destruct (tryBlock_fulfilled _ _ _ _ Htry) as (results & Hall & _).
    destruct (promiseAll_rejects _ _ _ Hin Hs) as (_ & e' & Hall' & _).
    congruence.
Qed.

(** The statement of C2 for a batch of two whose first request yields an
    image and whose second yields a text only. *)
Lemma handleGenerate_batch_failure_witness :
  let s := run [ClickMode Mode.product;
                PickFile Slot.product (Some (File.mk "image/png" "iVBORw0KGgo=" true));
                TypePrompt "on a marble countertop";
                ClickNumberOfImages 1] initialState in
  let api := fun i => match i with
                      | O => alwaysImage 5
                      | _ => onlyText 3 "I cannot help with that."
                      end in
  let r := handleGenerate api 1700000000000%Z s in
  resultImagesSet (Run.log r) = [] /\
  resultImages (Run.state r) = resultImages s /\
  displayedImages (Run.state r) = [] /\
  (exists message,
      error (Run.state r) = Some message /\ message <> EmptyString) /\
  appState (Run.state r) = AppState.Idle /\
  archived (Run.log r) = [] /\
  history (Run.state r) = history s.
Proof.
  apply (handleGenerate_batch_failure
           (fun i => match i with
                     | O => alwaysImage 5
                     | _ => onlyText 3 "I cannot help with that."
                     end)
           1700000000000%Z
           (run [ClickMode Mode.product;
                 PickFile Slot.product
                   (Some (File.mk "image/png" "iVBORw0KGgo=" true));
                 TypePrompt "on a marble countertop";
                 ClickNumberOfImages 1] initialState)).
  - split; [reflexivity | left; discriminate].
  - eexists _, _. split.
    + cbv. right. left. reflexivity.
    + cbv. reflexivity.
Defined.

(** The same batch: both requests were sent, and the error shown is the
    wrapped explanation of the model. *)
Example handleGenerate_batch_failure_message :
  let s := run [ClickMode Mode.product;
                PickFile Slot.product (Some (File.mk "image/png" "iVBORw0KGgo=" true));
                TypePrompt "on a marble countertop";
                ClickNumberOfImages 1] initialState in
  let api := fun i => match i with
                      | O => alwaysImage 5
                      | _ => onlyText 3 "I cannot help with that."
                      end in
  let r := handleGenerate api 1700000000000%Z s in
  numberOfImages s = 2 /\
  length (requested (Run.log r)) = 2 /\
  error (Run.state r) =
    Some "Failed to generate product concept. Model did not return an image. Response: I cannot help with that.".
Proof. repeat split. Qed.

(** ** A successful batch *)


Lemma concat_singletons {A B : Type} (f : A -> list B) (b : B) (l : list A) :
  (forall a, f a = [b]) -> concat (map f l) = repeat b (length l).
Proof.
  intros H. induction l as [|a l IH]; cbn; [reflexivity|]. now rewrite H, IH.
Qed.

(** The premise of C1 in terms of the inputs: when the slots that the mode
    reads decode and the model answers every call with an image, each of
    the [N] tasks exists and resolves. *)
Lemma tasks_resolve (api : nat -> Api.endpoint) (s : State) :
  (exists task0, generationTask api s (currentPromptOf s) 0 = Js.Ok task0) ->
  (forall i request,
      exists image,
        Promise.settled (executeImageGeneration (api i) request) = Js.Ok image) ->
  forall i, i < numberOfImages s ->
    exists task image,
      nth_error (generationTasksOf api s) i = Some task /\
      Promise.settled task = Js.Ok image.
Proof.
  intros (task0 & Hdecodes) Hanswers i Hi. unfold generationTasksOf.
  destruct (tryBlock_shape api s)
    as [(m & _ & Htry) | (prefix & parts & _ & Htry)].
  - exfalso.
    destruct (generationTask_uniform api s (currentPromptOf s))
      as [(m' & _ & Hthrow) | (prefix & parts & _ & Hbuild)].
    + rewrite Hthrow in Hdecodes. discriminate.
    + unfold tryBlock in Htry.
      rewrite (generationLoop_builds _ _ _ _ Hbuild) in Htry.
      destruct (numberOfImages s); [lia | discriminate].
  - cbv zeta in Htry. rewrite Htry. cbn [fst].
    destruct (Hanswers i parts) as (image & Himage).
    exists (rethrow prefix (executeImageGeneration (api i) parts)), image.
    split.
    + rewrite nth_error_map, nth_error_seq.
      destruct (Nat.ltb_spec i (numberOfImages s)); [reflexivity | lia].
    + unfold rethrow; cbn [Promise.settled]. now rewrite Himage.
Qed.



(** The same batch: the results keep the order of the requests although
    the requests settle in the reverse order. *)
Example handleGenerate_three_images_in_order :
  let s := run threeImagesSession initialState in
  let r := handleGenerate numberedImages 1700000000000%Z s in
  numberOfImages s = 3 /\
  length (requested (Run.log r)) = 3 /\
  map (@length Part.t) (requested (Run.log r)) = [4; 4; 4] /\
  resultImages (Run.state r) =
    ["data:image/png;base64,QUFB"; "data:image/png;base64,QkJC";
     "data:image/png;base64,Q0ND"] /\
  appState (Run.state r) = AppState.Result.
Proof. repeat split. Qed.

(** ** The history list *)

Lemma firstn_app_firstn {A : Type} (n m : nat) (l1 l2 : list A) :
  n <= m -> firstn n (l1 ++ firstn m l2) = firstn n (l1 ++ l2).
Proof.
  revert m l1. induction n as [|n IH]; intros m l1 Hle; [reflexivity|].
  destruct l1 as [|a l1]; cbn [app].
  - rewrite firstn_firstn. f_equal. lia.
  - cbn [firstn]. f_equal. apply IH. lia.
Qed.

(** A generate action archives one item, at the front of the capped list,
    exactly when it succeeds; otherwise it leaves the history alone. *)
Lemma handleGenerate_history (api : nat -> Api.endpoint) (now : Z) (s : State) :
  let r := handleGenerate api now s in
  (~ succeeds api now s /\ archived (Run.log r) = [] /\
   history (Run.state r) = history s)
  \/ (succeeds api now s /\
      exists generatedImages,
        let item := historyItemOf now s generatedImages in
        archived (Run.log r) = [item] /\
        resultImages (Run.state r) = generatedImages /\
        history (Run.state r) = firstn 10 (item :: history s)).
Proof.
  cbv zeta. unfold succeeds.
  destruct (handleGenerate_cases api now s) as [H | [H | H]].
  - destruct H as (_ & message & _ & ->). left. cbn.
    repeat split. intros [[=] | [[=] | []]].
  - destruct H as (_ & tasks & err & _ & ->). left.
    unfold failedRun; cbn [Run.state Run.log]. rewrite archived_send.
    repeat split. intros Hin.
    apply in_app_or in Hin as [[[=] | [[=] | []]] | Hin].
    apply in_app_or in Hin as [Hin | [[=] | [[=] | []]]].
    apply in_map_iff in Hin as (x & [=] & _).
  - destruct H as (_ & tasks & images & _ & ->). right.
    unfold succeededRun; cbn [Run.state Run.log]. rewrite archived_send.
    split.
    + apply in_or_app. right. apply in_or_app. right. cbn. tauto.
    + exists images. repeat split.
Qed.

(** Every action but a successful generation leaves the history alone. *)
Lemma step_history (a : action) (s : State) :
  (archived (stepEffects a s) = [] /\ history (step a s) = history s)
  \/ (exists item,
        archived (stepEffects a s) = [item] /\
        history (step a s) = firstn 10 (item :: history s)).
Proof.
  destruct a; cbn [step stepEffects];
    try (left; split; reflexivity).
  - left. split; [reflexivity|]. unfold handleFileChange.
    destruct files as [file|]; [|reflexivity].
    destruct (File.readAsDataURL file) as [result|]; [|reflexivity].
    destruct (Js.truthy result); [|reflexivity]. destruct slot; reflexivity.
  - left. split; [reflexivity|]. destruct slot; reflexivity.
  - left. split; [reflexivity|]. destruct (mode s); reflexivity.
  - left. split; [reflexivity|]. destruct (mode s); reflexivity.
  - left. split; [reflexivity|].
    destruct (nth_error [1; 2; 3; 4; 5; 6] k); reflexivity.
  - destruct (handleGenerate_history api now s)
      as [(_ & Ha & Hh) | (_ & images & Ha & _ & Hh)].
    + left. now split.
    + right. eexists. split; [exact Ha | exact Hh].
  - left. split; [reflexivity|].
    destruct (nth_error (history s) k) as [item|]; [|reflexivity].
    unfold handleReuseHistoryItem. destruct (HistoryItem.mode item); reflexivity.
Qed.

Lemma step_history_bounded (a : action) (s : State) :
  length (history s) <= 10 -> length (history (step a s)) <= 10.
Proof.
  intros H. destruct (step_history a s) as [[_ ->] | (item & _ & ->)].
  - exact H.
  - apply firstn_le_length.
Qed.

(** The history is the stack of the archived items, cut at ten. *)
Lemma run_history (actions : list action) (s : State) :
  length (history s) <= 10 ->
  length (history (run actions s)) <= 10 /\
  history (run actions s) =
    firstn 10 (rev (archived (effects actions s)) ++ history s).
Proof.
  revert s. induction actions as [|a actions IH]; intros s Hs; cbn [run effects].
  - split; [exact Hs|]. cbn [archived flat_map rev app].
    symmetry. now apply firstn_all2.
  - destruct (IH (step a s) (step_history_bounded a s Hs)) as [Hlen Heq].
    split; [exact Hlen|]. rewrite Heq.
    unfold archived at 2. rewrite flat_map_app. fold (archived (stepEffects a s)).
    fold (archived (effects actions (step a s))).
    rewrite rev_app_distr, <- app_assoc.
    destruct (step_history a s) as [[-> ->] | (item & -> & ->)]; cbn [rev app].
    + reflexivity.
    + now apply firstn_app_firstn.
Qed.

(** C4: in every session the history holds at most 10 entries; it is the
    list of the entries archived by the successful generations, most
    recent first, cut at ten; a successful generation puts its new entry at
    index 0, before the nine most recent older ones; and once 11
    generations have succeeded, the 11th entry is at index 0 and the
    history consists of the entries 11, 10, ..., 2 -- the entry of the 1st
    generation is gone (it occurs nowhere in the list when the entries
    carry distinct [Date.now()] ids). *)
Theorem history_capped_most_recent_first (actions : list action) :
  let s := run actions initialState in
  let items := archived (effects actions initialState) in
  length (history s) <= 10 /\
  history s = firstn 10 (rev items) /\
  (forall api now,
      succeeds api now s ->
      exists generatedImages,
        let item := historyItemOf now s generatedImages in
        let s' := step (ClickGenerate api now) s in
        resultImages s' = generatedImages /\
        nth_error (history s') 0 = Some item /\
        history s' = item :: firstn 9 (history s)) /\
  (length items = 11 ->
   nth_error (history s) 0 = nth_error items 10 /\
   history s = rev (skipn 1 items) /\
   (NoDup (map HistoryItem.id items) ->
    forall first, nth_error items 0 = Some first -> ~ In first (history s))).
Proof.
  cbv zeta.
  destruct (run_history actions initialState) as [Hlen Heq]; [cbn; lia|].
  cbn [history initialState] in Heq. rewrite app_nil_r in Heq.
  split; [exact Hlen|]. split; [exact Heq|]. split.
  - intros api now Hok. cbn [step].
    destruct (handleGenerate_history api now (run actions initialState))
      as [(Hno & _) | (_ & images & _ & Hres & Hhist)]; [contradiction|].
    exists images. rewrite Hhist. repeat split. exact Hres.
  - intros H11. rewrite Heq.
    set (items := archived (effects actions initialState)) in *.
    clearbody items. clear Heq Hlen.
    destruct items as [|first rest]; [discriminate|].
    assert (Hrest : length rest = 10) by (cbn in H11; lia).
    assert (Hcut : firstn 10 (rev (first :: rest)) = rev rest).
    { cbn [rev].
      rewrite firstn_app, length_rev, Hrest, Nat.sub_diag, firstn_O, app_nil_r.
      apply firstn_all2. rewrite length_rev. lia. }
    rewrite Hcut. cbn [skipn nth_error]. repeat split.
    + do 10 (destruct rest as [|? rest]; [discriminate|]).
      destruct rest; [reflexivity | discriminate].
    + intros Hnodup first' [= <-] Hin.
      apply NoDup_cons_iff in Hnodup as [Hnotin _]. apply Hnotin.
      apply in_map. now apply in_rev.
Qed.

(** The statement of C4 after eleven successful generations. *)
Lemma history_capped_most_recent_first_witness :
  let s := run elevenGenerations initialState in
  let items := archived (effects elevenGenerations initialState) in
  map HistoryItem.id items = [1; 2; 3; 4; 5; 6; 7; 8; 9; 10; 11]%Z /\
  length (history s) <= 10 /\
  nth_error (history s) 0 = nth_error items 10 /\
  history s = rev (skipn 1 items) /\
  (forall first, nth_error items 0 = Some first -> ~ In first (history s)).
Proof.
  cbv zeta.
  destruct (history_capped_most_recent_first elevenGenerations)
    as (Hlen & _ & _ & H11).
  assert (Hids : map HistoryItem.id
                   (archived (effects elevenGenerations initialState))
                 = [1; 2; 3; 4; 5; 6; 7; 8; 9; 10; 11]%Z) by (vm_compute; reflexivity).
  destruct H11 as (Hfront & Hrest & Habsent).
  - rewrite <- (length_map HistoryItem.id), Hids. reflexivity.
  - split; [exact Hids|]. split; [exact Hlen|]. split; [exact Hfront|].
    split; [exact Hrest|].
    apply Habsent. rewrite Hids.
    repeat (constructor; [cbn; intuition discriminate|]). constructor.
Defined.

(** The ids left in the history after these eleven generations. *)
Example history_after_eleven_generations :
  map HistoryItem.id (history (run elevenGenerations initialState))
  = [11; 10; 9; 8; 7; 6; 5; 4; 3; 2]%Z.
Proof. vm_compute. reflexivity. Qed.

(** ** Instruction text in product mode *)

Lemma append_assoc (a b c : string) : (a +:+ b) +:+ c = a +:+ (b +:+ c).
Proof. induction a as [|x a IH]; cbn; [reflexivity | now rewrite IH]. Qed.

(** A character foreign to [lit] ends every attempt to match [lit]. *)
Lemma startsWith_separator (lit l r : string) (c : ascii) :
  charIn c lit = false ->
  Js.startsWith lit (l +:+ String c r) = Js.startsWith lit l.
Proof.
  unfold Js.startsWith. revert l.
  induction lit as [|x lit IH]; intros l Hc; [reflexivity|].
  cbn in Hc. apply orb_false_elim in Hc as [Hx Hc].
  destruct l as [|a l]; cbn.
  - now rewrite Hx.
  - destruct (Ascii.eqb x a); [now apply IH | reflexivity].
Qed.

(** An occurrence of [lit] cannot span a character foreign to [lit]. *)
Lemma includes_separator (lit l r : string) (c : ascii) :
  charIn c lit = false ->
  Js.includes lit (l +:+ String c r) = Js.includes lit l || Js.includes lit r.
Proof.
  intros Hc. induction l as [|a l IH].
  - change (EmptyString +:+ String c r) with (String c r).
    cbn [Js.includes].
    rewrite <- (startsWith_separator lit EmptyString r c Hc).
    now rewrite orb_false_r.
  - change (String a l +:+ String c r) with (String a (l +:+ String c r)).
    cbn [Js.includes].
    change (String a (l +:+ String c r)) with (String a l +:+ String c r).
    rewrite (startsWith_separator lit (String a l) r c Hc), IH.
    now rewrite orb_assoc.
Qed.

Lemma includes_free (lit s : string) :
  lit <> EmptyString -> freeOf lit s = true -> Js.includes lit s = false.
Proof.
  intros Hlit. induction s as [|c s IH]; cbn [freeOf].
  - intros _. destruct lit; [congruence | reflexivity].
  - intros H. apply andb_prop in H as [Hc Hs].
    apply negb_true_iff in Hc.
    change (String c s) with (EmptyString +:+ String c s).
    rewrite (includes_separator lit EmptyString s c Hc), (IH Hs).
    destruct lit; [congruence | reflexivity].
Qed.

(** *** Texts that hold no occurrence of a literal *)

Lemma freeOf_append (lit a b : string) :
  freeOf lit (a +:+ b) = freeOf lit a && freeOf lit b.
Proof.
  induction a as [|c a IH]; cbn [String.append freeOf]; [reflexivity|].
  now rewrite IH, andb_assoc.
Qed.

Lemma dropTrailingZeros_free (lit s : string) :
  freeOf lit s = true -> freeOf lit (Js.dropTrailingZeros s) = true.
Proof.
  induction s as [|c s IH]; cbn [Js.dropTrailingZeros freeOf]; [reflexivity|].
  intros H. apply andb_prop in H as [Hc Hs]. specialize (IH Hs).
  destruct (Js.dropTrailingZeros s) as [|c' s'].
  - destruct (Ascii.eqb c "0"); cbn [freeOf]; [reflexivity | now rewrite Hc].
  - cbn [freeOf] in IH |- *. now rewrite Hc, IH.
Qed.

Section ForeignLiteral.

Variable lit : string.
Hypothesis Hforeign : foreignToSizes lit = true.

Lemma foreign_chars :
  lit <> EmptyString /\ Js.includes lit " " = false /\
  Js.includes lit "Infinity" = false /\
  freeOf lit "a():-+.e0123456789" = true.
Proof.
  pose proof Hforeign as H. unfold foreignToSizes in H.
  apply andb_prop in H as [H Hspace].
  do 4 (apply andb_prop in H as [H _]).
  apply andb_prop in H as [H Hinfinity].
  apply negb_true_iff in Hspace. apply negb_true_iff in Hinfinity.
  split; [|repeat split; assumption].
  intros Hlit. rewrite Hlit in Hspace. discriminate.
Qed.

Lemma foreign_char (c : ascii) :
  charIn c "a():-+.e0123456789" = true -> charIn c lit = false.
Proof.
  destruct foreign_chars as (_ & _ & _ & Hfree). revert Hfree.
  generalize "a():-+.e0123456789". intros s. induction s as [|x s IH]; cbn.
  - discriminate.
  - intros Hfree Hin. apply andb_prop in Hfree as [Hx Hs].
    destruct (Ascii.eqb_spec x c) as [<- | _]; [now apply negb_true_iff|].
    now apply IH.
Qed.

Lemma includes_empty : Js.includes lit EmptyString = false.
Proof.
  destruct foreign_chars as (Hlit & _). destruct lit; [congruence | reflexivity].
Qed.

(** The digits of an integer are foreign to the literal. *)
Lemma integerToString_free (z : Z) : freeOf lit (Js.integerToString z) = true.
Proof.
  assert (Huint : forall d, freeOf lit (NilEmpty.string_of_uint d) = true).
  { induction d; cbn [NilEmpty.string_of_uint freeOf];
      try rewrite IHd; try rewrite foreign_char; reflexivity. }
  assert (Hzero : forall d, freeOf lit (NilZero.string_of_uint d) = true).
  { intros d. destruct d; try apply Huint.
    cbn [NilZero.string_of_uint freeOf]. now rewrite foreign_char. }
  unfold Js.integerToString, NilZero.string_of_int.
  destruct (Z.to_int z) as [d | d]; [apply Hzero|].
  cbn [freeOf]. now rewrite Hzero, foreign_char.
Qed.

Lemma exponentForm_free (digits : string) :
  freeOf lit digits = true -> freeOf lit (Js.exponentForm digits) = true.
Proof.
  destruct digits as [|d rest]; [reflexivity|].
  cbn [freeOf Js.exponentForm]. intros H. apply andb_prop in H as [Hd Hrest].
  apply dropTrailingZeros_free in Hrest.
  change (String d ?x +:+ ?y) with (String d (x +:+ y)).
  cbn [freeOf]. rewrite Hd, freeOf_append.
  change ("e+" +:+ ?x) with (String "e" (String "+" x)).
  cbn [freeOf]. rewrite integerToString_free, !foreign_char by reflexivity.
  destruct (Js.dropTrailingZeros rest) as [|c fraction]; [reflexivity|].
  change ("." +:+ ?x) with (String "." x).
  cbn [freeOf] in Hrest |- *. rewrite Hrest, foreign_char by reflexivity.
  reflexivity.
Qed.

Lemma printNumber_free (v : Z) : freeOf lit (Js.printNumber v) = true.
Proof.
  unfold Js.printNumber.
  destruct (v <? 2 ^ 53)%Z; [apply integerToString_free|].
  cbv zeta.
  match goal with |- context [(?m <? 10 ^ 21)%Z] => destruct (m <? 10 ^ 21)%Z end.
  - apply integerToString_free.
  - apply exponentForm_free, integerToString_free.
Qed.

(** However a number prints -- digits, exponent form or [Infinity] -- the
    text holds no occurrence of the literal. *)
Lemma numberToString_foreign (z : Z) : Js.includes lit (Js.numberToString z) = false.
Proof.
  destruct foreign_chars as (Hlit & _ & Hinfinity & _).
  unfold Js.numberToString.
  destruct (Js.toNumber (Z.abs z)) as [v|]; cbv zeta; destruct (z <? 0)%Z.
  - apply includes_free; [exact Hlit|].
    change ("-" +:+ ?x) with (String "-" x). cbn [freeOf].
    now rewrite printNumber_free, foreign_char.
  - apply includes_free; [exact Hlit | apply printNumber_free].
  - change ("-" +:+ "Infinity") with (EmptyString +:+ String "-" "Infinity").
    rewrite includes_separator by (apply foreign_char; reflexivity).
    now rewrite includes_empty, Hinfinity.
  - exact Hinfinity.
Qed.

(** Every aspect-ratio clause that the page can produce is the letter [a],
    a text without the literal, and a closing parenthesis. *)
Lemma clause_inner (size : sizeButton) (width height : Z) :
  exists inner,
    getAspectRatioDescription (sizeValue size) width height
      = String "a" (inner +:+ ")") /\
    Js.includes lit inner = false.
Proof.
  pose proof Hforeign as Hf. unfold foreignToSizes in Hf.
  repeat (apply andb_prop in Hf as [Hf ?]).
  repeat match goal with H : negb _ = true |- _ => apply negb_true_iff in H end.
  destruct size; unfold getAspectRatioDescription; cbn [sizeValue].
  - now exists " square (1:1".
  - now exists " portrait (3:4".
  - now exists " landscape (4:3".
  - cbn [String.eqb Ascii.eqb Bool.eqb andb].
    destruct ((0 <? width)%Z && (0 <? height)%Z); [|now exists " (custom"].
    exists (" (" +:+ Js.numberToString width +:+ ":" +:+ Js.numberToString height).
    split; [cbn; now rewrite !append_assoc|].
    change (" (" +:+ Js.numberToString width +:+ ":" +:+ Js.numberToString height)
      with (" " +:+ String "(" (Js.numberToString width
                                  +:+ String ":" (Js.numberToString height))).
    rewrite includes_separator by (apply foreign_char; reflexivity).
    rewrite includes_separator by (apply foreign_char; reflexivity).
    rewrite !numberToString_foreign.
    match goal with H : Js.includes lit " " = false |- _ => now rewrite H end.
Qed.

(** The literal occurs in a text around an aspect-ratio clause only if it
    occurs before the clause or after it. *)
Lemma includes_around_clause (before after : string) (size : sizeButton)
    (width height : Z) :
  Js.includes lit
    (before +:+ getAspectRatioDescription (sizeValue size) width height +:+ after)
  = Js.includes lit before || Js.includes lit after.
Proof.
  destruct (clause_inner size width height) as (inner & -> & Hinner).
  assert (Heq : before +:+ String "a" (inner +:+ ")") +:+ after
                = before +:+ String "a" (inner +:+ String ")" after)).
  { cbn. now rewrite append_assoc. }
  rewrite Heq.
  rewrite includes_separator by (apply foreign_char; reflexivity).
  rewrite includes_separator by (apply foreign_char; reflexivity).
  now rewrite Hinner.
Qed.

End ForeignLiteral.

(** Every aspect-ratio clause that the page can produce is the letter [a],
    a text without the marker, and a closing parenthesis. *)
Lemma getAspectRatioDescription_shape (b : sizeButton) (width height : Z) :
  exists inner,
    getAspectRatioDescription (sizeValue b) width height
      = String "a" (inner +:+ ")") /\
    Js.includes sceneMarker inner = false.
Proof. apply clause_inner. reflexivity. Qed.

Lemma startsWith_append (lit rest : string) : Js.startsWith lit (lit +:+ rest) = true.
Proof.
  unfold Js.startsWith. induction lit as [|c lit IH]; cbn; [reflexivity|].
  now rewrite Ascii.eqb_refl.
Qed.

Lemma includes_intro (lit before after : string) :
  Js.includes lit (before +:+ lit +:+ after) = true.
Proof.
  induction before as [|c before IH].
  - change (EmptyString +:+ lit +:+ after) with (lit +:+ after).
    destruct (lit +:+ after) eqn:Heq; cbn [Js.includes];
      rewrite <- Heq, startsWith_append; reflexivity.
  - change (String c before +:+ lit +:+ after)
      with (String c (before +:+ lit +:+ after)).
    cbn [Js.includes]. rewrite IH. apply orb_true_r.
Qed.

(** What follows the aspect-ratio clause in the background template holds
    the marker only inside the user's quoted text. *)
Lemma backgroundTemplate_rest (userPrompt : string) :
  Js.includes sceneMarker
    (backgroundTemplateMid +:+ additionalRequest userPrompt
       +:+ backgroundTemplateTail)
  = Js.includes sceneMarker userPrompt.
Proof.
  destruct userPrompt as [|a u]; [vm_compute; reflexivity|].
  unfold additionalRequest; cbn [Js.truthy].
  set (q := ascii_of_nat 34).
  assert (Heq :
    backgroundTemplateMid
      +:+ (Js.nl +:+ "ADDITIONAL USER REQUEST: " +:+ Js.dq +:+ String a u +:+ Js.dq)
      +:+ backgroundTemplateTail
    = (backgroundTemplateMid +:+ Js.nl +:+ "ADDITIONAL USER REQUEST: ")
        +:+ String q (String a u +:+ String q backgroundTemplateTail)).
  { rewrite !append_assoc. reflexivity. }
  rewrite Heq. clear Heq.
  rewrite includes_separator by reflexivity.
  rewrite includes_separator by reflexivity.
  assert (Hleft : Js.includes sceneMarker
            (backgroundTemplateMid +:+ Js.nl +:+ "ADDITIONAL USER REQUEST: ") = false)
    by (vm_compute; reflexivity).
  assert (Hright : Js.includes sceneMarker backgroundTemplateTail = false)
    by (vm_compute; reflexivity).
  rewrite Hleft, Hright. cbn [orb]. apply orb_false_r.
Qed.

(** C6, as the code has it. Without a background image the instruction
    holds the user's scene description verbatim, between double quotes,
    right after [USER SCENE DESCRIPTION: ]. With a background image the
    template has no such clause: the user's text is quoted after
    [ADDITIONAL USER REQUEST: ] (or left out when empty), and the
    instruction contains the text [USER SCENE DESCRIPTION] exactly when the
    user's own text contains it. In both cases the instruction is the text
    of the last part of the request. *)
Theorem productConceptPrompt_scene_clause
    (productImage : ImagePayload.t) (backgroundImage : option ImagePayload.t)
    (userPrompt : string) (size : sizeButton) (customWidth customHeight : Z) :
  let clause := "USER SCENE DESCRIPTION: " +:+ Js.dq +:+ userPrompt +:+ Js.dq in
  let scenePrompt :=
    productConceptPrompt false userPrompt (sizeValue size) customWidth customHeight in
  let backgroundPrompt :=
    productConceptPrompt true userPrompt (sizeValue size) customWidth customHeight in
  (exists before after, scenePrompt = before +:+ clause +:+ after) /\
  Js.includes clause scenePrompt = true /\
  Js.includes sceneMarker backgroundPrompt = Js.includes sceneMarker userPrompt /\
  last (productConceptParts productImage backgroundImage userPrompt
          (sizeValue size) customWidth customHeight) (textPart EmptyString)
  = textPart (if Js.present backgroundImage then backgroundPrompt else scenePrompt).
Proof.
  cbv zeta.
  assert (Hscene : exists before after,
    productConceptPrompt false userPrompt (sizeValue size) customWidth customHeight
    = before +:+ ("USER SCENE DESCRIPTION: " +:+ Js.dq +:+ userPrompt +:+ Js.dq)
        +:+ after).
  { exists (sceneTemplateHead
              +:+ getAspectRatioDescription (sizeValue size) customWidth customHeight
              +:+ " aspect ratio." +:+ Js.nl +:+ Js.nl),
           sceneTemplateTail.
    unfold productConceptPrompt. rewrite !append_assoc. reflexivity. }
  split; [exact Hscene|]. split.
  { destruct Hscene as (before & after & ->). apply includes_intro. }
  split.
  - unfold productConceptPrompt.
    destruct (getAspectRatioDescription_shape size customWidth customHeight)
      as (inner & -> & Hinner).
    set (rest := backgroundTemplateMid +:+ additionalRequest userPrompt
                   +:+ backgroundTemplateTail).
    assert (Heq : String "a" (inner +:+ ")") +:+ rest
                  = String "a" (inner +:+ String ")" rest)).
    { cbn. now rewrite append_assoc. }
    rewrite Heq. clear Heq.
    rewrite includes_separator by reflexivity.
    rewrite includes_separator by reflexivity.
    unfold rest. rewrite backgroundTemplate_rest, Hinner.
    assert (Hhead : Js.includes sceneMarker backgroundTemplateHead = false)
      by (vm_compute; reflexivity).
    now rewrite Hhead.
  - destruct backgroundImage; reflexivity.
Qed.

(** C6 fails as stated: with a background image and a user text that
    itself says [USER SCENE DESCRIPTION], the inputs are valid, and the
    instruction sent to the model contains that literal. *)
Lemma productConceptPrompt_background_quotes_user_text :
  let s := run [ClickMode Mode.product;
                PickFile Slot.product (Some (File.mk "image/png" "iVBORw0KGgo=" true));
                PickFile Slot.background
                  (Some (File.mk "image/jpeg" "/9j/4AAQSkZJRg==" true));
                TypePrompt "USER SCENE DESCRIPTION: a beach at dusk"] initialState in
  let r := handleGenerate (fun _ => alwaysImage 1) 0%Z s in
  complete s /\
  Js.present (backgroundImage s) = true /\
  appState (Run.state r) = AppState.Result /\
  exists productPart backgroundPart instruction,
    requested (Run.log r)
      = [[productPart; backgroundPart; textPart instruction]] /\
    instruction
      = productConceptPrompt true (productPrompt s) (aspectRatio s)
          (customWidth s) (customHeight s) /\
    Js.includes "USER SCENE DESCRIPTION" instruction = true.
Proof.
  cbv zeta. split; [split; [reflexivity | now right]|].
  split; [reflexivity|]. split; [vm_compute; reflexivity|].
  eexists _, _, _. split; [vm_compute; reflexivity|].
  split; vm_compute; reflexivity.
Qed.

(** ** Request assembly in character mode *)

Lemma startsWith_prefix (lit head rest : string) :
  Js.startsWith lit head = true -> Js.startsWith lit (head +:+ rest) = true.
Proof.
  unfold Js.startsWith. revert head.
  induction lit as [|c lit IH]; intros head; [reflexivity|].
  destruct head as [|a head]; cbn; [discriminate|].
  destruct (Ascii.eqb c a); [apply IH | discriminate].
Qed.

(** A template holds the aspect-ratio clause it interpolates, followed by
    the words that the template puts after it. *)
Lemma template_holds_clause (head clause mid mid' rest : string) :
  mid = " aspect ratio." +:+ mid' ->
  Js.includes (clause +:+ " aspect ratio.") (head +:+ clause +:+ mid +:+ rest) = true.
Proof.
  intros ->.
  replace (head +:+ clause +:+ (" aspect ratio." +:+ mid') +:+ rest)
    with (head +:+ (clause +:+ " aspect ratio.") +:+ (mid' +:+ rest))
    by (now rewrite !append_assoc).
  apply includes_intro.
Qed.

(** A text holds what it quotes. *)
Lemma includes_quoted (before text after : string) :
  Js.includes (Js.dq +:+ text +:+ Js.dq)
    (before +:+ Js.dq +:+ text +:+ Js.dq +:+ after) = true.
Proof.
  replace (before +:+ Js.dq +:+ text +:+ Js.dq +:+ after)
    with (before +:+ (Js.dq +:+ text +:+ Js.dq) +:+ after)
    by (now rewrite !append_assoc).
  apply includes_intro.
Qed.

(** A template with an optional request quotes the user's text, if there
    is one. *)
Lemma template_quotes_request (head clause mid userPrompt tail : string) :
  userPrompt <> EmptyString ->
  Js.includes (Js.dq +:+ userPrompt +:+ Js.dq)
    (head +:+ clause +:+ mid +:+ additionalRequest userPrompt +:+ tail) = true.
Proof.
  destruct userPrompt as [|a u]; [congruence | intros _].
  unfold additionalRequest; cbn [Js.truthy].
  replace (head +:+ clause +:+ mid
             +:+ (Js.nl +:+ "ADDITIONAL USER REQUEST: " +:+ Js.dq +:+ String a u +:+ Js.dq)
             +:+ tail)
    with ((head +:+ clause +:+ mid +:+ Js.nl +:+ "ADDITIONAL USER REQUEST: ")
            +:+ Js.dq +:+ String a u +:+ Js.dq +:+ tail)
    by (now rewrite !append_assoc).
  apply includes_quoted.
Qed.

(** C5: in character mode the request consists of the character image, the
    product image, the outfit image when (and only when) one is supplied,
    and then the instruction text: 3 parts without an outfit and 4 with
    one, every image part before the only text part, which is last. Each
    image part carries the base64 data and the MIME type of its image and
    no text; the text part carries the instruction and no image. The
    instruction is the one of the template for the images sent: it opens
    with the task of dressing the character when there is an outfit and
    with the task of product placement when there is none, it holds the
    aspect-ratio clause, and it quotes the user's text, if there is one.
    These parts are the one request the call puts on the network. *)
Theorem characterPlacementParts_shape
    (call : Api.endpoint) (characterImage productImage : ImagePayload.t)
    (outfitImage : option ImagePayload.t) (userPrompt aspectRatio : string)
    (customWidth customHeight : Z) :
  let parts :=
    characterPlacementParts characterImage productImage outfitImage
      userPrompt aspectRatio customWidth customHeight in
  let inline := fun image : ImagePayload.t =>
    Part.mk (Some (Blob.mk (Some (ImagePayload.base64 image))
                           (Some (ImagePayload.mimeType image))))
            None in
  let images :=
    [inline characterImage; inline productImage]
      ++ match outfitImage with Some o => [inline o] | None => [] end in
  let instruction :=
    characterPlacementPrompt (Js.present outfitImage) userPrompt aspectRatio
      customWidth customHeight in
  let text := Part.mk None (Some instruction) in
  parts = images ++ [text] /\
  length parts = (if Js.present outfitImage then 4 else 3) /\
  filter isImagePart parts = images /\
  filter isTextPart parts = [text] /\
  nth_error parts (length images) = Some text /\
  nth_error parts 2 =
    match outfitImage with
    | Some o => Some (inline o)
    | None => Some text
    end /\
  Js.startsWith
    (if Js.present outfitImage
     then "You are a professional digital artist. Your task is to dress a character in a specific outfit and have them interact with a product."
     else "You are a professional digital artist specializing in photorealistic product placement.")
    instruction = true /\
  Js.includes
    (getAspectRatioDescription aspectRatio customWidth customHeight
       +:+ " aspect ratio.") instruction = true /\
  (userPrompt <> EmptyString ->
   Js.includes (Js.dq +:+ userPrompt +:+ Js.dq) instruction = true) /\
  Promise.sent
    (generateCharacterPlacementImage call characterImage productImage
       outfitImage userPrompt aspectRatio customWidth customHeight) = [parts].
Proof.
  cbv zeta.
  destruct outfitImage as [outfit|]; cbn [Js.present];
    (split; [reflexivity|]); (split; [reflexivity|]); (split; [reflexivity|]);
    (split; [reflexivity|]); (split; [reflexivity|]); (split; [reflexivity|]);
    unfold characterPlacementPrompt.
  - split; [apply startsWith_prefix; vm_compute; reflexivity|].
    split; [eapply template_holds_clause; reflexivity|].
    split; [apply template_quotes_request | reflexivity].
  - split; [apply startsWith_prefix; vm_compute; reflexivity|].
    split; [eapply template_holds_clause; reflexivity|].
    split; [apply template_quotes_request | reflexivity].
Qed.

(** * Further properties of the code *)

(** ** Data-URLs *)

(** X1: [parseDataUrl] accepts exactly the strings
    [data:TYPE;base64,PAYLOAD] whose type is [image/jpeg], [image/png] or
    [image/webp] and whose payload holds no line terminator, and returns
    that type and payload, so that writing the result back in this form
    gives the input again; every other string is refused with the one
    error [Invalid image data URL.]. *)
Theorem parseDataUrl_accepts_exactly (dataUrl : string) :
  (forall image,
      parseDataUrl dataUrl = Js.Ok image <->
      In (ImagePayload.mimeType image) ["image/jpeg"; "image/png"; "image/webp"] /\
      Js.noLineTerminator (ImagePayload.base64 image) = true /\
      dataUrl = "data:" +:+ ImagePayload.mimeType image +:+ ";base64,"
                  +:+ ImagePayload.base64 image) /\
  (forall e, parseDataUrl dataUrl = Js.Throw e ->
             e = Js.JsError "Invalid image data URL.").
Proof.
  split.
  - intros [payload mime]; cbn [ImagePayload.mimeType ImagePayload.base64]. split.
    + unfold parseDataUrl, matchDataUrl.
      destruct (Js.stripPrefix "data:image/" dataUrl) as [rest|] eqn:Hdata;
        [|discriminate].
      apply stripPrefix_spec in Hdata. subst dataUrl.
      destruct (Js.stripPrefix ("jpeg" +:+ ";base64,") rest) as [p1|] eqn:H1.
      * apply stripPrefix_spec in H1. subst rest.
        destruct (Js.noLineTerminator p1) eqn:Hn1.
        -- intros [= <- <-]. split; [now left | split; [exact Hn1 | reflexivity]].
        -- cbn. destruct (Js.stripPrefix "webp;base64," ("jpeg;base64," +:+ p1)) eqn:H3;
             [cbn in H3; discriminate | discriminate].
      * destruct (Js.stripPrefix ("png" +:+ ";base64,") rest) as [p2|] eqn:H2.
        -- apply stripPrefix_spec in H2. subst rest.
           destruct (Js.noLineTerminator p2) eqn:Hn2.
           ++ intros [= <- <-].
              split; [right; now left | split; [exact Hn2 | reflexivity]].
           ++ cbn. discriminate.
        -- destruct (Js.stripPrefix ("webp" +:+ ";base64,") rest) as [p3|] eqn:H3;
             [|discriminate].
           apply stripPrefix_spec in H3. subst rest.
           destruct (Js.noLineTerminator p3) eqn:Hn3; [|discriminate].
           intros [= <- <-].
           split; [right; right; now left | split; [exact Hn3 | reflexivity]].
    + intros (Hmime & Hpayload & ->).
      destruct Hmime as [<- | [<- | [<- | []]]];
        unfold parseDataUrl, matchDataUrl; cbn; rewrite Hpayload; reflexivity.
  - unfold parseDataUrl. destruct (matchDataUrl dataUrl) as [[mime payload]|].
    + discriminate.
    + now intros e [= <-].
Qed.

(** ** Request assembly in product mode *)

(** X2: in product mode the request consists of the product image, the
    background image when (and only when) one is supplied, and then the
    instruction text: 2 parts without a background and 3 with one, every
    image part before the only text part, which is last. Each image part
    carries the base64 data and the MIME type of its image and no text;
    the text part carries the instruction and no image. The instruction
    is the one of the template for the images sent: it opens with the task
    of placing the product into the background of the second image when
    there is one, and into a new scene when there is none, it holds the
    aspect-ratio clause, and it quotes the user's text, if there is one.
    These parts are the one request the call puts on the network. *)
Theorem productConceptParts_shape
    (call : Api.endpoint) (productImage : ImagePayload.t)
    (backgroundImage : option ImagePayload.t) (userPrompt aspectRatio : string)
    (customWidth customHeight : Z) :
  let parts :=
    productConceptParts productImage backgroundImage userPrompt aspectRatio
      customWidth customHeight in
  let inline := fun image : ImagePayload.t =>
    Part.mk (Some (Blob.mk (Some (ImagePayload.base64 image))
                           (Some (ImagePayload.mimeType image))))
            None in
  let images :=
    [inline productImage]
      ++ match backgroundImage with Some b => [inline b] | None => [] end in
  let instruction :=
    productConceptPrompt (Js.present backgroundImage) userPrompt aspectRatio
      customWidth customHeight in
  let text := Part.mk None (Some instruction) in
  parts = images ++ [text] /\
  length parts = (if Js.present backgroundImage then 3 else 2) /\
  filter isImagePart parts = images /\
  filter isTextPart parts = [text] /\
  nth_error parts (length images) = Some text /\
  Js.startsWith
    (if Js.present backgroundImage
     then "You are a professional product photographer and digital artist. Your task is to place the product from the first image into the background provided in the second image."
     else "You are a professional product photographer and digital artist. Your task is to place the product from the provided image into a new, beautifully composed scene.")
    instruction = true /\
  Js.includes
    (getAspectRatioDescription aspectRatio customWidth customHeight
       +:+ " aspect ratio.") instruction = true /\
  (userPrompt <> EmptyString ->
   Js.includes (Js.dq +:+ userPrompt +:+ Js.dq) instruction = true) /\
  Promise.sent
    (generateProductConceptImage call productImage backgroundImage userPrompt
       aspectRatio customWidth customHeight) = [parts].
Proof.
  cbv zeta.
  destruct backgroundImage as [background|]; cbn [Js.present];
    (split; [reflexivity|]); (split; [reflexivity|]); (split; [reflexivity|]);
    (split; [reflexivity|]); (split; [reflexivity|]);
    unfold productConceptPrompt.
  - split; [apply startsWith_prefix; vm_compute; reflexivity|].
    split; [eapply template_holds_clause; reflexivity|].
    split; [apply template_quotes_request | reflexivity].
  - split; [apply startsWith_prefix; vm_compute; reflexivity|].
    split; [eapply template_holds_clause; reflexivity|].
    split; [|reflexivity].
    intros _.
    replace (sceneTemplateHead
               +:+ getAspectRatioDescription aspectRatio customWidth customHeight
               +:+ sceneTemplateMid +:+ Js.dq +:+ userPrompt +:+ Js.dq
               +:+ sceneTemplateTail)
      with ((sceneTemplateHead
               +:+ getAspectRatioDescription aspectRatio customWidth customHeight
               +:+ sceneTemplateMid)
              +:+ Js.dq +:+ userPrompt +:+ Js.dq +:+ sceneTemplateTail)
      by (now rewrite !append_assoc).
    apply includes_quoted.
Qed.

(** ** The Generate button and the validation *)

Lemma isGenerateDisabled_complete (s : State) :
  isGenerateDisabled s = false <-> complete s.
Proof.
  unfold isGenerateDisabled, complete, currentPromptOf.
  destruct (mode s); cbn [Mode.eqb andb orb];
    destruct (Js.truthyOpt (productImage s)); cbn [negb andb orb].
  - destruct (Js.truthyOpt (characterImage s)); cbn; intuition discriminate.
  - destruct (Js.truthyOpt (characterImage s)); cbn; intuition discriminate.
  - destruct (Js.trim (productPrompt s)); cbn [Js.truthy negb andb].
    + destruct (Js.truthyOpt (backgroundImage s)); cbn; intuition discriminate.
    + intuition discriminate.
  - intuition discriminate.
Qed.

(** X3: the Generate button is enabled exactly when [handleGenerate] gets
    past its validation and sets [Loading]; with the button disabled the
    handler would send nothing and only set one of its three validation
    messages. The check of the button and the check of the handler never
    disagree. *)
Theorem isGenerateDisabled_agrees_with_validation
    (api : nat -> Api.endpoint) (now : Z) (s : State) :
  let r := handleGenerate api now s in
  (isGenerateDisabled s = false <->
   In (CallSetAppState AppState.Loading) (Run.log r)) /\
  (isGenerateDisabled s = true ->
   requested (Run.log r) = [] /\
   exists message,
     error (Run.state r) = Some message /\
     In message
        ["Please upload both a character and a product image.";
         "Please upload a product image.";
         "Please describe the scene or provide a background image for the product concept."]).
Proof.
  cbv zeta. split.
  - rewrite isGenerateDisabled_complete.
    destruct (handleGenerate_cases api now s) as [H | [H | H]].
    + destruct H as (Hno & message & _ & ->). cbn.
      split; [contradiction | intros [[=] | [[=] | []]]].
    + destruct H as (Hc & tasks & err & _ & ->).
      split; [intros _; apply in_or_app; left; right; now left
             | intros _; exact Hc].
    + destruct H as (Hc & tasks & images & _ & ->).
      split; [intros _; apply in_or_app; left; right; now left
             | intros _; exact Hc].
  - unfold isGenerateDisabled, handleGenerate, currentPromptOf.
    destruct (mode s); cbn [Mode.eqb andb orb].
    + rewrite orb_false_r. intros ->. cbn. split; [reflexivity|].
      eexists. split; [reflexivity | now left].
    + destruct (Js.truthyOpt (productImage s)); cbn [negb andb orb].
      * intros ->. cbn. split; [reflexivity|].
        eexists. split; [reflexivity | right; right; now left].
      * intros _. cbn. split; [reflexivity|].
        eexists. split; [reflexivity | right; now left].
Qed.

(** The statement of X3 for the initial page, where nothing is uploaded. *)
Lemma isGenerateDisabled_agrees_with_validation_witness :
  let r := handleGenerate (fun _ => alwaysImage 1) 0%Z initialState in
  requested (Run.log r) = [] /\
  exists message,
    error (Run.state r) = Some message /\
    In message
       ["Please upload both a character and a product image.";
        "Please upload a product image.";
        "Please describe the scene or provide a background image for the product concept."].
Proof.
  apply (proj2 (isGenerateDisabled_agrees_with_validation
                  (fun _ => alwaysImage 1) 0%Z initialState)).
  reflexivity.
Defined.

(** ** Uploading and clearing images *)

(** X4: an upload fills its own slot with the data-URL and a clear empties
    it again; neither touches another image slot, and clearing after an
    upload leaves the state as clearing alone would. *)
Theorem handleImageUpload_then_clear (slot other : Slot.t) (dataUrl : string)
    (s : State) :
  let uploaded := handleImageUpload slot dataUrl s in
  slotImage slot uploaded = Some dataUrl /\
  slotImage slot (handleImageClear slot uploaded) = None /\
  handleImageClear slot uploaded = handleImageClear slot s /\
  (other <> slot ->
   slotImage other uploaded = slotImage other s /\
   slotImage other (handleImageClear slot s) = slotImage other s).
Proof.
  cbv zeta. repeat split; destruct slot; try reflexivity;
    destruct other; try reflexivity; congruence.
Qed.

(** The statement of X4 for the outfit and product slots. *)
Lemma handleImageUpload_then_clear_witness :
  let uploaded :=
    handleImageUpload Slot.outfit "data:image/png;base64,iVBORw0KGgo=" initialState in
  slotImage Slot.product uploaded = slotImage Slot.product initialState /\
  slotImage Slot.product (handleImageClear Slot.outfit initialState)
  = slotImage Slot.product initialState.
Proof.
  apply (proj2 (proj2 (proj2
           (handleImageUpload_then_clear Slot.outfit Slot.product
              "data:image/png;base64,iVBORw0KGgo=" initialState)))).
  discriminate.
Defined.

(** ** Continue, Start Over and Reuse *)

(** X5: [handleContinue] goes back to [Idle] with an empty result list, no
    error and the count reset to 1, and keeps the mode, the four images,
    both prompts, the size selection and the history; so the Generate
    button is enabled just as before and every turn of a new batch builds
    the task it built before. After [handleStartOver], by contrast, the
    button is always disabled. *)
Theorem handleContinue_keeps_inputs (api : nat -> Api.endpoint) (s : State) :
  let s' := handleContinue s in
  appState s' = AppState.Idle /\ resultImages s' = [] /\ error s' = None /\
  numberOfImages s' = 1 /\
  mode s' = mode s /\
  characterImage s' = characterImage s /\ productImage s' = productImage s /\
  outfitImage s' = outfitImage s /\ backgroundImage s' = backgroundImage s /\
  characterPrompt s' = characterPrompt s /\ productPrompt s' = productPrompt s /\
  aspectRatio s' = aspectRatio s /\
  customWidth s' = customWidth s /\ customHeight s' = customHeight s /\
  history s' = history s /\
  isGenerateDisabled s' = isGenerateDisabled s /\
  (forall i, generationTask api s' (currentPromptOf s') i
             = generationTask api s (currentPromptOf s) i) /\
  isGenerateDisabled (handleStartOver s) = true.
Proof.
  cbv zeta. repeat split.
  unfold isGenerateDisabled; cbn. destruct (mode s); reflexivity.
Qed.

(** X6: reusing the history item of a generation brings back the inputs of
    that generation -- mode, the four images, and the prompt in the slot of
    that mode, the other prompt being emptied -- whatever the page held;
    the count, the size selection, the results and the history stay as they
    are. The Generate button is then enabled exactly if it was enabled for
    that generation. *)
Theorem handleReuseHistoryItem_restores_inputs
    (now : Z) (generated : State) (generatedImages : list string) (s : State) :
  let item := historyItemOf now generated generatedImages in
  let s' := handleReuseHistoryItem item s in
  mode s' = mode generated /\
  characterImage s' = characterImage generated /\
  productImage s' = productImage generated /\
  outfitImage s' = outfitImage generated /\
  backgroundImage s' = backgroundImage generated /\
  currentPromptOf s' = currentPromptOf generated /\
  (match mode generated with
   | Mode.character => productPrompt s'
   | Mode.product => characterPrompt s'
   end) = EmptyString /\
  isGenerateDisabled s' = isGenerateDisabled generated /\
  numberOfImages s' = numberOfImages s /\ aspectRatio s' = aspectRatio s /\
  customWidth s' = customWidth s /\ customHeight s' = customHeight s /\
  appState s' = appState s /\ resultImages s' = resultImages s /\
  error s' = error s /\ history s' = history s.
Proof.
  cbv zeta. unfold handleReuseHistoryItem, historyItemOf, isGenerateDisabled,
    currentPromptOf; cbn [HistoryItem.mode HistoryItem.prompt
    HistoryItem.characterImage HistoryItem.productImage
    HistoryItem.outfitImage HistoryItem.backgroundImage].
  destruct (mode generated); repeat split.
Qed.

(** ** The requests and the errors of a generate action *)

Lemma parseSlot_truthy (image : option string) :
  Js.truthyOpt image = true ->
  (exists p, parseSlot image = Js.Ok p) \/
  parseSlot image = Js.Throw (Js.JsError "Invalid image data URL.").
Proof.
  destruct image as [dataUrl|]; [intros _ | discriminate].
  unfold parseSlot, parseDataUrl.
  destruct (matchDataUrl dataUrl) as [[mime payload]|]; [left | right];
    [eexists|]; reflexivity.
Qed.

Lemma parseOptionalSlot_cases (image : option string) :
  (exists p, parseOptionalSlot image = Js.Ok p) \/
  parseOptionalSlot image = Js.Throw (Js.JsError "Invalid image data URL.").
Proof.
  unfold parseOptionalSlot. destruct (Js.truthyOpt image) eqn:Ht.
  - destruct (parseSlot_truthy image Ht) as [(p & ->) | ->];
      [left; eexists | right]; reflexivity.
  - left. eexists. reflexivity.
Qed.

(** With inputs that pass validation, what a turn of the loop does is fixed
    by the state alone: every turn, on every endpoint, refuses a slot as an
    invalid data-URL, or every turn sends the same parts through the
    wrapper of the mode. *)
Lemma generationTask_plan (s : State) :
  complete s ->
  (forall api i,
      generationTask api s (currentPromptOf s) i
      = Js.Throw (Js.JsError "Invalid image data URL."))
  \/ (exists parts,
        forall api i,
          generationTask api s (currentPromptOf s) i
          = Js.Ok (rethrow (failurePrefix (mode s))
                     (executeImageGeneration (api i) parts))).
Proof.
  unfold complete, generationTask.
  destruct (mode s); intros [H1 H2].
  - destruct (parseSlot_truthy _ H1) as [(c & ->) | ->]; [|now left].
    destruct (parseSlot_truthy _ H2) as [(p & ->) | ->]; [|now left].
    destruct (parseOptionalSlot_cases (outfitImage s)) as [(o & ->) | ->];
      [|now left].
    right. eexists. intros api i. reflexivity.
  - destruct (parseSlot_truthy _ H1) as [(p & ->) | ->]; [|now left].
    destruct (parseOptionalSlot_cases (backgroundImage s)) as [(o & ->) | ->];
      [|now left].
    right. eexists. intros api i. reflexivity.
Qed.

(** The [try] block of a state that passes validation. *)
Lemma tryBlock_plan (s : State) :
  complete s ->
  (forall api,
      tryBlock api s =
        ([], match numberOfImages s with
             | O => Js.Ok []
             | S _ => Js.Throw (Js.JsError "Invalid image data URL.")
             end))
  \/ (exists parts,
        forall api,
          let tasks :=
            map (fun i => rethrow (failurePrefix (mode s))
                            (executeImageGeneration (api i) parts))
                (seq 0 (numberOfImages s)) in
          tryBlock api s =
            (tasks, results <- promiseAll tasks ;; Js.mapM toDataUrl results)).
Proof.
  intros Hc. unfold tryBlock.
  destruct (generationTask_plan s Hc) as [Hthrow | (parts & Hbuild)].
  - left. intros api.
    rewrite (generationLoop_throws _ _ _ _ (Hthrow api)).
    destruct (numberOfImages s); reflexivity.
  - right. exists parts. intros api.
    rewrite (generationLoop_builds _ _ _ _ (Hbuild api)). reflexivity.
Qed.

Lemma failurePrefix_nonempty (m : Mode.t) : failurePrefix m <> EmptyString.
Proof. destruct m; discriminate. Qed.

Lemma rethrow_thrown (prefix : string) (p : Promise.t GeneratedImage.t)
    (e : Js.thrown) :
  Promise.settled (rethrow prefix p) = Js.Throw e ->
  exists detail, e = Js.JsError (prefix +:+ detail).
Proof.
  unfold rethrow; cbn. destruct (Promise.settled p) as [v | e0]; cbn;
    [discriminate|].
  intros [= <-]. eexists. reflexivity.
Qed.

Lemma promiseAll_fulfilled {A : Type} (tasks : list (Promise.t A)) (values : list A) :
  promiseAll tasks = Js.Ok values ->
  Forall2 (fun task v => Promise.settled task = Js.Ok v) tasks values.
Proof.
  unfold promiseAll. destruct (firstRejection tasks None) as [[t e]|];
    [discriminate|].
  revert values. induction tasks as [|task tasks IH]; intros values; cbn.
  - intros [= <-]. constructor.
  - destruct (Promise.settled task) as [v | e] eqn:Hs; cbn; [|discriminate].
    destruct (Js.mapM _ tasks) as [vs | e]; cbn; [|discriminate].
    intros [= <-]. constructor; [exact Hs | now apply IH].
Qed.

(** The images of a batch that ran through: one data-URL per task. *)
Lemma tryBlock_images (s : State) (prefix : string) (parts : list Part.t)
    (api : nat -> Api.endpoint) :
  prefix <> EmptyString ->
  let tasks :=
    map (fun i => rethrow prefix (executeImageGeneration (api i) parts))
        (seq 0 (numberOfImages s)) in
  forall results,
    promiseAll tasks = Js.Ok results ->
    Js.mapM toDataUrl results = Js.Ok (map dataUrlOf results) /\
    length results = numberOfImages s.
Proof.
  intros Hprefix tasks results Hall.
  apply promiseAll_fulfilled in Hall.
  split.
  - apply mapM_toDataUrl_ok.
    assert (Hf : forall task, In task tasks ->
               exists i, task = rethrow prefix (executeImageGeneration (api i) parts)).
    { intros task Hin. apply in_map_iff in Hin as (i & <- & _). now exists i. }
    clear -Hall Hf Hprefix.
    induction Hall as [|task v l values Hv _ IH]; constructor.
    + destruct (Hf task (or_introl eq_refl)) as (i & ->).
      exact (proj1 (proj2 (rethrow_settled prefix (api i) parts Hprefix)) _ Hv).
    + apply IH. intros t Ht. apply Hf. now right.
  - rewrite <- (Forall2_length Hall). unfold tasks.
    now rewrite length_map, length_seq.
Qed.

(** A generate action that is refused by the validation shows one of the
    three validation messages and nothing else happens. *)
Lemma handleGenerate_refused (api : nat -> Api.endpoint) (now : Z) (s : State) :
  ~ complete s ->
  exists message,
    In message
       ["Please upload both a character and a product image.";
        "Please upload a product image.";
        "Please describe the scene or provide a background image for the product concept."] /\
    handleGenerate api now s =
      Run.mk (setError (Some message) s)
             [CallSetError None; CallSetError (Some message)].
Proof.
  rewrite <- isGenerateDisabled_complete.
  unfold isGenerateDisabled, handleGenerate, currentPromptOf.
  destruct (mode s); cbn [Mode.eqb andb orb].
  - rewrite orb_false_r.
    destruct (negb (Js.truthyOpt (characterImage s))
              || negb (Js.truthyOpt (productImage s))); [intros _ | congruence].
    eexists. split; [now left | reflexivity].
  - destruct (Js.truthyOpt (productImage s)); cbn [negb andb orb].
    + destruct (negb (Js.truthy (Js.trim (productPrompt s)))
                && negb (Js.truthyOpt (backgroundImage s)));
        [intros _ | congruence].
      eexists. split; [right; right; now left | reflexivity].
    + intros _. eexists. split; [right; now left | reflexivity].
Qed.

Lemma requested_failedRun (s : State) (tasks : list (Promise.t GeneratedImage.t))
    (err : Js.thrown) :
  requested (Run.log (failedRun s tasks err)) = concat (map Promise.sent tasks).
Proof.
  unfold failedRun; cbn [Run.log]. rewrite requested_send. cbn. apply app_nil_r.
Qed.

Lemma requested_succeededRun (now : Z) (s : State)
    (tasks : list (Promise.t GeneratedImage.t)) (images : list string) :
  requested (Run.log (succeededRun now s tasks images))
  = concat (map Promise.sent tasks).
Proof.
  unfold succeededRun; cbn [Run.log]. rewrite requested_send. cbn. apply app_nil_r.
Qed.

Lemma sent_by_tasks (prefix : string) (parts : list Part.t)
    (api : nat -> Api.endpoint) (n : nat) :
  concat (map Promise.sent
            (map (fun i => rethrow prefix (executeImageGeneration (api i) parts))
                 (seq 0 n)))
  = repeat parts n.
Proof.
  rewrite map_map, (concat_singletons _ parts); [now rewrite length_seq|].
  intros i. reflexivity.
Qed.

(** The four ways a generate action can end. *)
Lemma handleGenerate_four_ways (api : nat -> Api.endpoint) (now : Z) (s : State) :
  let r := handleGenerate api now s in
  (~ complete s /\ requested (Run.log r) = [] /\
   appState (Run.state r) = appState s /\
   exists message,
     In message
        ["Please upload both a character and a product image.";
         "Please upload a product image.";
         "Please describe the scene or provide a background image for the product concept."] /\
     error (Run.state r) = Some message)
  \/ (complete s /\ requested (Run.log r) = [] /\
      appState (Run.state r) = AppState.Idle /\
      error (Run.state r) = Some "Invalid image data URL.")
  \/ (complete s /\
      (exists parts, requested (Run.log r) = repeat parts (numberOfImages s)) /\
      appState (Run.state r) = AppState.Idle /\
      exists detail,
        error (Run.state r) = Some (failurePrefix (mode s) +:+ detail))
  \/ (complete s /\
      (exists parts, requested (Run.log r) = repeat parts (numberOfImages s)) /\
      appState (Run.state r) = AppState.Result /\
      error (Run.state r) = None /\
      length (resultImages (Run.state r)) = numberOfImages s).
Proof.
  cbv zeta.
  destruct (handleGenerate_cases api now s) as [H | [H | H]].
  - left. destruct H as (Hno & _).
    destruct (handleGenerate_refused api now s Hno) as (message & Hin & ->).
    split; [exact Hno|]. cbn. repeat split. now exists message.
  - right. destruct H as (Hc & tasks & err & Htry & ->).
    rewrite requested_failedRun. unfold failedRun; cbn [Run.state].
    destruct (tryBlock_plan s Hc) as [Hplan | (parts & Hplan)];
      rewrite (Hplan api) in Htry.
    + left. destruct (numberOfImages s); [discriminate Htry|].
      injection Htry as <- <-.
      split; [exact Hc|]. repeat split.
    + right; left. cbv zeta in Htry. injection Htry as <- Htried.
      split; [exact Hc|]. split.
      { exists parts. apply sent_by_tasks. }
      split; [reflexivity|].
      set (tasks := map _ _) in Htried.
      destruct (promiseAll tasks) as [results | e] eqn:Hall; cbn in Htried.
      * exfalso.
        destruct (tryBlock_images s _ parts api (failurePrefix_nonempty (mode s))
                    results Hall) as [Hok _].
        congruence.
      * injection Htried as <-.
        destruct (promiseAll_thrown _ _ Hall) as (task & Hin & Hs).
        apply in_map_iff in Hin as (i & <- & _).
        destruct (rethrow_thrown _ _ _ Hs) as (detail & ->).
        exists detail. reflexivity.
  - right; right; right. destruct H as (Hc & tasks & images & Htry & ->).
    rewrite requested_succeededRun. unfold succeededRun; cbn [Run.state].
    split; [exact Hc|].
    destruct (tryBlock_plan s Hc) as [Hplan | (parts & Hplan)];
      rewrite (Hplan api) in Htry.
    + destruct (numberOfImages s); [|discriminate Htry].
      injection Htry as <- <-.
      split; [exists []; reflexivity|]. repeat split.
    + cbv zeta in Htry. injection Htry as <- Htried.
      split; [exists parts; apply sent_by_tasks|].
      split; [reflexivity|]. split; [reflexivity|].
      set (tasks := map _ _) in Htried.
      destruct (promiseAll tasks) as [results | e] eqn:Hall; cbn in Htried;
        [|discriminate].
      destruct (tryBlock_images s _ parts api (failurePrefix_nonempty (mode s))
                  results Hall) as [Hok Hlen].
      rewrite Hok in Htried. injection Htried as <-.
      cbn. now rewrite length_map.
Qed.

(** X7: a generate action ends in one of four ways, and its error slot
    tells which. (1) Refused by the validation: one of the three validation
    messages, nothing sent, the application state untouched. (2) An input
    image is not a jpeg, png or webp data-URL: nothing sent, error
    [Invalid image data URL.], back in [Idle]. (3) A request failed: all
    [N] requests were sent, the error starts with the mode's prefix
    ([Failed to generate image. ] or [Failed to generate product concept. ]),
    back in [Idle]. (4) Success: all [N] requests were sent, no error, [N]
    result images, state [Result]. In particular the message of the check
    inside [results.map] is never shown. *)
Theorem handleGenerate_outcomes (api : nat -> Api.endpoint) (now : Z) (s : State) :
  let r := handleGenerate api now s in
  ((~ complete s /\ requested (Run.log r) = [] /\
    appState (Run.state r) = appState s /\
    exists message,
      In message
         ["Please upload both a character and a product image.";
          "Please upload a product image.";
          "Please describe the scene or provide a background image for the product concept."] /\
      error (Run.state r) = Some message)
   \/ (complete s /\ requested (Run.log r) = [] /\
       appState (Run.state r) = AppState.Idle /\
       error (Run.state r) = Some "Invalid image data URL.")
   \/ (complete s /\
       (exists parts, requested (Run.log r) = repeat parts (numberOfImages s)) /\
       appState (Run.state r) = AppState.Idle /\
       exists detail,
         error (Run.state r) = Some (failurePrefix (mode s) +:+ detail))
   \/ (complete s /\
       (exists parts, requested (Run.log r) = repeat parts (numberOfImages s)) /\
       appState (Run.state r) = AppState.Result /\
       error (Run.state r) = None /\
       length (resultImages (Run.state r)) = numberOfImages s)) /\
  error (Run.state r)
  <> Some "One or more image generations failed. The model did not return a valid image.".
Proof.
  cbv zeta. pose proof (handleGenerate_four_ways api now s) as H. cbv zeta in H.
  split; [exact H|].
  destruct H as [H | [H | [H | H]]].
  - destruct H as (_ & _ & _ & message & Hin & ->).
    destruct Hin as [<- | [<- | [<- | []]]]; discriminate.
  - destruct H as (_ & _ & _ & ->). discriminate.
  - destruct H as (_ & _ & _ & detail & ->). destruct (mode s); discriminate.
  - destruct H as (_ & _ & _ & -> & _). discriminate.
Qed.

Lemma generationLoop_ext (api : nat -> Api.endpoint) (s s' : State)
    (currentPrompt : string) :
  (forall i, generationTask api s' currentPrompt i
             = generationTask api s currentPrompt i) ->
  forall remaining i tasks,
    generationLoop api s' currentPrompt i remaining tasks
    = generationLoop api s currentPrompt i remaining tasks.
Proof.
  intros H remaining. induction remaining as [|remaining IH]; intros i tasks; cbn.
  - reflexivity.
  - rewrite H. destruct (generationTask api s currentPrompt i); [apply IH | reflexivity].
Qed.

Lemma sameInputs_tryBlock (api : nat -> Api.endpoint) (s s' : State) :
  sameInputs s s' ->
  isGenerateDisabled s' = isGenerateDisabled s /\ tryBlock api s' = tryBlock api s.
Proof.
  intros (Hm & Hc & Hp & Ho & Hb & Hcp & Hpp & Hn & Ha & Hw & Hh).
  assert (Hprompt : currentPromptOf s' = currentPromptOf s).
  { unfold currentPromptOf. now rewrite Hm, Hcp, Hpp. }
  split.
  - unfold isGenerateDisabled. now rewrite Hprompt, Hm, Hc, Hp, Hb.
  - unfold tryBlock. rewrite Hprompt, Hn.
    rewrite (generationLoop_ext api s s'); [reflexivity|].
    intros i. unfold generationTask. now rewrite Hm, Hc, Hp, Ho, Hb, Ha, Hw, Hh.
Qed.

(** What a generate action sends: nothing when the button's check fails,
    the requests of the started tasks otherwise. *)
Lemma requested_handleGenerate (api : nat -> Api.endpoint) (now : Z) (s : State) :
  requested (Run.log (handleGenerate api now s)) =
  if isGenerateDisabled s then []
  else concat (map Promise.sent (fst (tryBlock api s))).
Proof.
  destruct (handleGenerate_cases api now s) as [H | [H | H]].
  - destruct H as (Hno & message & _ & ->).
    destruct (isGenerateDisabled s) eqn:Hd; [reflexivity|].
    apply isGenerateDisabled_complete in Hd. contradiction.
  - destruct H as (Hc & tasks & err & -> & ->).
    apply isGenerateDisabled_complete in Hc. rewrite Hc.
    apply requested_failedRun.
  - destruct H as (Hc & tasks & images & -> & ->).
    apply isGenerateDisabled_complete in Hc. rewrite Hc.
    apply requested_succeededRun.
Qed.

(** The requests of a batch are fixed by the state. *)
Lemma sent_plan (s : State) :
  complete s ->
  exists plan,
    (plan = [] \/ exists parts, plan = repeat parts (numberOfImages s)) /\
    forall api, concat (map Promise.sent (fst (tryBlock api s))) = plan.
Proof.
  intros Hc. destruct (tryBlock_plan s Hc) as [Hplan | (parts & Hplan)].
  - exists []. split; [now left|]. intros api. now rewrite Hplan.
  - exists (repeat parts (numberOfImages s)). split; [right; now exists parts|].
    intros api. rewrite Hplan. cbv zeta. cbn [fst]. apply sent_by_tasks.
Qed.

(** X8: what a generate action sends depends on the state alone, not on
    what the model answers or when: no request is held back, repeated or
    changed because another one failed or succeeded. It is either nothing
    or [N] copies of one list of parts. *)
Theorem requests_do_not_depend_on_replies
    (api1 api2 : nat -> Api.endpoint) (now1 now2 : Z) (s : State) :
  requested (Run.log (handleGenerate api1 now1 s))
  = requested (Run.log (handleGenerate api2 now2 s)) /\
  (requested (Run.log (handleGenerate api1 now1 s)) = [] \/
   exists parts,
     requested (Run.log (handleGenerate api1 now1 s))
     = repeat parts (numberOfImages s)).
Proof.
  rewrite !requested_handleGenerate.
  destruct (isGenerateDisabled s) eqn:Hd.
  - split; [reflexivity | now left].
  - apply isGenerateDisabled_complete in Hd.
    destruct (sent_plan s Hd) as (plan & Hshape & Hplan).
    rewrite !Hplan. split; [reflexivity|].
    destruct Hshape as [-> | (parts & ->)]; [now left | right; now exists parts].
Qed.

(** X9: whatever its outcome, a generate action leaves the inputs as they
    were -- mode, images, prompts, count and size selection -- so that
    pressing Generate or Regenerate again sends the same requests again. *)
Theorem handleGenerate_keeps_inputs
    (api api' : nat -> Api.endpoint) (now now' : Z) (s : State) :
  let r := handleGenerate api now s in
  sameInputs s (Run.state r) /\
  isGenerateDisabled (Run.state r) = isGenerateDisabled s /\
  requested (Run.log (handleGenerate api' now' (Run.state r)))
  = requested (Run.log r).
Proof.
  cbv zeta.
  assert (Hsame : sameInputs s (Run.state (handleGenerate api now s))).
  { destruct (handleGenerate_cases api now s) as [H | [H | H]].
    - destruct H as (_ & message & _ & ->). repeat split.
    - destruct H as (_ & tasks & err & _ & ->). repeat split.
    - destruct H as (_ & tasks & images & _ & ->). repeat split. }
  split; [exact Hsame|].
  destruct (sameInputs_tryBlock api' s _ Hsame) as [Hd Htry].
  split; [exact Hd|].
  rewrite !requested_handleGenerate, Hd, Htry.
  destruct (isGenerateDisabled s) eqn:Hdis; [reflexivity|].
  apply isGenerateDisabled_complete in Hdis.
  destruct (sent_plan s Hdis) as (plan & _ & Hplan).
  now rewrite !Hplan.
Qed.

(** *** Which rejection is shown *)

Section FirstRejection.

Context {A : Type}.
Variables (t : nat) (e : Js.thrown).

Lemma firstRejection_kept (tasks : list (Promise.t A)) :
  Forall (fulfilsOrSettlesAfter t) tasks ->
  firstRejection tasks (Some (t, e)) = Some (t, e).
Proof.
  induction 1 as [|task tasks Htask _ IH]; cbn [firstRejection]; [reflexivity|].
  destruct (Promise.settled task) as [v | e'] eqn:Hs; [exact IH|].
  destruct Htask as [Hok | Hlater]; [rewrite Hs in Hok; discriminate|].
  destruct (Nat.ltb_spec (Promise.settledAt task) t); [lia | exact IH].
Qed.

Lemma firstRejection_earliest (pre post : list (Promise.t A)) (task : Promise.t A)
    (best : option (nat * Js.thrown)) :
  (forall tb eb, best = Some (tb, eb) -> t < tb) ->
  Forall (fulfilsOrSettlesAfter t) pre ->
  Forall (fulfilsOrSettlesAfter t) post ->
  Promise.settled task = Js.Throw e -> Promise.settledAt task = t ->
  firstRejection (pre ++ task :: post) best = Some (t, e).
Proof.
  intros Hbest Hpre Hpost Hs Ht. revert best Hbest.
  induction Hpre as [|x pre Hx _ IH]; intros best Hbest; cbn [app firstRejection].
  - rewrite Hs, Ht. destruct best as [[tb eb]|].
    + specialize (Hbest tb eb eq_refl).
      destruct (Nat.ltb_spec t tb); [|lia]. now apply firstRejection_kept.
    + now apply firstRejection_kept.
  - destruct (Promise.settled x) as [v | ex] eqn:Hsx; [now apply IH|].
    destruct Hx as [Hok | Hlater]; [rewrite Hsx in Hok; discriminate|].
    destruct best as [[tb eb]|].
    + specialize (Hbest tb eb eq_refl).
      destruct (Nat.ltb (Promise.settledAt x) tb); apply IH;
        intros tb' eb' [= <- <-]; assumption.
    + apply IH. intros tb' eb' [= <- <-]. assumption.
Qed.

End FirstRejection.

(** X10: when one request of a batch rejects strictly before every other
    rejection of the batch, it is the message of that rejection which the
    page shows -- the position of the request in the batch plays no part,
    and later rejections are never reported. *)
Theorem handleGenerate_shows_first_rejection
    (api : nat -> Api.endpoint) (now : Z) (s : State)
    (pre post : list (Promise.t GeneratedImage.t))
    (task : Promise.t GeneratedImage.t) (e : Js.thrown)
    (Hcomplete : complete s)
    (Htasks : generationTasksOf api s = pre ++ task :: post)
    (Hrejects : Promise.settled task = Js.Throw e)
    (Hfirst : Forall (fulfilsOrSettlesAfter (Promise.settledAt task)) (pre ++ post)) :
  error (Run.state (handleGenerate api now s)) = Some (shownMessage e).
Proof.
  apply Forall_app in Hfirst as [Hpre Hpost].
  assert (Hall : promiseAll (pre ++ task :: post) = Js.Throw e).
  { unfold promiseAll.
    rewrite (firstRejection_earliest (Promise.settledAt task) e pre post task None);
      [reflexivity | discriminate | assumption | assumption | assumption
      | reflexivity]. }
  unfold generationTasksOf in Htasks.
  assert (Htry : tryBlock api s = (pre ++ task :: post, Js.Throw e)).
  { destruct (tryBlock_shape api s)
      as [(m & _ & Hshape) | (prefix & parts & _ & Hshape)].
    - rewrite Hshape in Htasks. destruct pre; discriminate.
    - cbv zeta in Hshape. rewrite Hshape in Htasks |- *. cbn [fst] in Htasks.
      rewrite Htasks, Hall. reflexivity. }
  destruct (handleGenerate_cases api now s) as [[Hno _] | [H | H]].
  - contradiction.
  - destruct H as (_ & tasks & err & Htry' & ->).
    rewrite Htry in Htry'. injection Htry' as <- <-. reflexivity.
  - destruct H as (_ & tasks & images & Htry' & _). congruence.
Qed.

(** The statement of X10 for a batch of three in which the second request
    fails at time 2 and the third at time 4, the first yielding an image. *)
Lemma handleGenerate_shows_first_rejection_witness :
  let s := run threeImagesSession initialState in
  let api := fun i => match i with
                      | 0 => alwaysImage 1
                      | 1 => fun _ => Api.mkOutcome 2 (Api.Fails (Js.JsError "quota exceeded"))
                      | _ => onlyText 4 "I cannot help with that."
                      end in
  error (Run.state (handleGenerate api 0%Z s))
  = Some "Failed to generate image. quota exceeded".
Proof.
  cbv zeta.
  set (api := fun i : nat => match i with
                      | 0 => alwaysImage 1
                      | 1 => fun _ => Api.mkOutcome 2 (Api.Fails (Js.JsError "quota exceeded"))
                      | _ => onlyText 4 "I cannot help with that."
                      end).
  set (s := run threeImagesSession initialState).
  assert (Htasks : exists t0 t1 t2, generationTasksOf api s = [t0] ++ t1 :: [t2]
            /\ Promise.settled t1
               = Js.Throw (Js.JsError "Failed to generate image. quota exceeded")
            /\ Promise.settledAt t1 = 2
            /\ Js.succeeded (Promise.settled t0) = true
            /\ Promise.settledAt t2 = 4).
  { eexists _, _, _. split; [vm_compute; reflexivity|]. repeat split. }
  destruct Htasks as (t0 & t1 & t2 & Htasks & Hs1 & Ht1 & Hs0 & Ht2).
  apply (handleGenerate_shows_first_rejection api 0%Z s [t0] [t2] t1
           (Js.JsError "Failed to generate image. quota exceeded")).
  - split; reflexivity.
  - exact Htasks.
  - exact Hs1.
  - rewrite Ht1. cbn [app].
    constructor; [now left|].
    constructor; [right; rewrite Ht2; lia | constructor].
Defined.

(** ** What holds throughout a session *)

(** The images of a batch that ran through. *)
Lemma tryBlock_ok_images (api : nat -> Api.endpoint) (s : State)
    (tasks : list (Promise.t GeneratedImage.t)) (images : list string) :
  complete s ->
  tryBlock api s = (tasks, Js.Ok images) ->
  length images = numberOfImages s /\
  Forall (fun url => Js.startsWith "data:" url = true) images.
Proof.
  intros Hc Htry.
  destruct (tryBlock_plan s Hc) as [Hplan | (parts & Hplan)];
    rewrite (Hplan api) in Htry.
  - destruct (numberOfImages s); [|discriminate Htry].
    injection Htry as <- <-. split; [reflexivity | constructor].
  - cbv zeta in Htry. injection Htry as <- Htried.
    set (l := map _ _) in Htried.
    destruct (promiseAll l) as [results | e] eqn:Hall; cbn in Htried;
      [|discriminate].
    destruct (tryBlock_images s _ parts api (failurePrefix_nonempty (mode s))
                results Hall) as [Hok Hlen].
    rewrite Hok in Htried. injection Htried as <-.
    split; [now rewrite length_map|].
    apply Forall_forall. intros url Hin.
    apply in_map_iff in Hin as (image & <- & _). reflexivity.
Qed.

Lemma itemComplete_historyItemOf (now : Z) (s : State) (images : list string) :
  complete s -> itemComplete (historyItemOf now s images).
Proof.
  unfold complete, itemComplete, historyItemOf, currentPromptOf; cbn.
  destruct (mode s); trivial.
Qed.

Lemma complete_handleReuseHistoryItem (item : HistoryItem.t) (s : State) :
  itemComplete item -> complete (handleReuseHistoryItem item s).
Proof.
  unfold itemComplete, complete, handleReuseHistoryItem.
  destruct (HistoryItem.mode item); cbn; trivial.
Qed.

(** Closes the goals that [wellFormed] leaves when an action does not
    touch, or resets, a component. *)
Ltac keep_wellFormed :=
  repeat split; cbn; intros;
  try assumption; try lia; try tauto; try discriminate;
  try (match goal with
       | Hres : ?P -> _ <= _ <= _, Hp : ?P |- _ => pose proof (Hres Hp); lia
       end);
  try constructor.

Lemma step_wellFormed (a : action) (s : State) :
  wellFormed s -> wellFormed (step a s).
Proof.
  intros ((Hn1 & Hn6) & Ha & Hw & Hh & Hst & Hres & Hurls & Hhist).
  destruct a; cbn [step].
  - unfold handleFileChange.
    destruct files as [file|]; [|keep_wellFormed].
    destruct (File.readAsDataURL file) as [result|]; [|keep_wellFormed].
    destruct (Js.truthy result); [|keep_wellFormed].
    destruct slot; keep_wellFormed.
  - destruct slot; keep_wellFormed.
  - keep_wellFormed.
  - destruct (mode s); keep_wellFormed.
  - destruct (mode s); keep_wellFormed.
  - destruct b; keep_wellFormed.
  - keep_wellFormed. apply Z.le_max_l.
  - keep_wellFormed. apply Z.le_max_l.
  - destruct (nth_error [1; 2; 3; 4; 5; 6] k) as [num|] eqn:Hk;
      [|keep_wellFormed].
    assert (1 <= num <= 6).
    { do 6 (destruct k as [|k]; [injection Hk as <-; lia|]).
      destruct k; discriminate. }
    keep_wellFormed.
  - destruct (handleGenerate_cases api now s) as [H | [H | H]].
    + destruct H as (_ & message & _ & ->). keep_wellFormed.
    + destruct H as (_ & tasks & err & _ & ->). keep_wellFormed.
    + destruct H as (Hc & tasks & images & Htry & ->).
      destruct (tryBlock_ok_images _ _ _ _ Hc Htry) as [Hlen Hdata].
      unfold succeededRun; cbn [Run.state].
      assert (Hitem : itemOk (historyItemOf now s images)).
      { split; [now apply itemComplete_historyItemOf|].
        split; [cbn; lia | exact Hdata]. }
      assert (Hhist' : Forall itemOk
                         (firstn 10 (historyItemOf now s images :: history s))).
      { apply Forall_forall. intros x Hx.
        assert (Hx' : In x (historyItemOf now s images :: history s)).
        { rewrite <- (firstn_skipn 10 (historyItemOf now s images :: history s)).
          apply in_or_app. now left. }
        clear Hx. destruct Hx' as [<- | Hx]; [exact Hitem|].
        exact (proj1 (Forall_forall _ _) Hhist x Hx). }
      split; [cbn; lia|]. split; [exact Ha|]. split; [exact Hw|].
      split; [exact Hh|]. split; [now right|].
      split; [intros _; cbn; lia|]. split; [exact Hdata | exact Hhist'].
  - keep_wellFormed.
  - keep_wellFormed.
  - destruct (nth_error (history s) k) as [item|]; [|keep_wellFormed].
    unfold handleReuseHistoryItem.
    destruct (HistoryItem.mode item); keep_wellFormed.
  - keep_wellFormed.
Qed.

Lemma run_wellFormed (actions : list action) (s : State) :
  wellFormed s -> wellFormed (run actions s).
Proof.
  revert s. induction actions as [|a actions IH]; intros s H; cbn [run].
  - exact H.
  - apply IH. now apply step_wellFormed.
Qed.

Lemma initialState_wellFormed : wellFormed initialState.
Proof. keep_wellFormed. Qed.

(** X11: in every session the selected count stays between 1 and 6, the
    aspect ratio is one of the four values of the size buttons and the
    custom width and height are never negative; so no generate action ever
    sends more than six requests. *)
Theorem session_options_in_range (actions : list action)
    (api : nat -> Api.endpoint) (now : Z) :
  let s := run actions initialState in
  1 <= numberOfImages s <= 6 /\
  In (aspectRatio s) ["1:1"; "3:4"; "4:3"; "custom"] /\
  (0 <= customWidth s)%Z /\ (0 <= customHeight s)%Z /\
  length (requested (Run.log (handleGenerate api now s))) <= 6.
Proof.
  cbv zeta.
  destruct (run_wellFormed actions initialState initialState_wellFormed)
    as ((Hn1 & Hn6) & Ha & Hw & Hh & _).
  repeat split; try assumption.
  rewrite requested_handleGenerate.
  destruct (isGenerateDisabled (run actions initialState)) eqn:Hd; [cbn; lia|].
  apply isGenerateDisabled_complete in Hd.
  destruct (sent_plan _ Hd) as (plan & Hshape & Hplan). rewrite Hplan.
  destruct Hshape as [-> | (parts & ->)]; [cbn; lia|].
  now rewrite repeat_length.
Qed.

(** X12: between two actions the application is in [Idle] or in [Result],
    never in [Loading] or [Error]; and in [Result] it holds between one and
    six result images, each a [data:] URL. So the page shows the idle
    content or the result view with one to six pictures; [renderContent]
    never yields nothing. *)
Theorem session_view (actions : list action) :
  let s := run actions initialState in
  (appState s = AppState.Idle /\ renderContent s = IdleContent) \/
  (appState s = AppState.Result /\
   renderContent s = ResultView (resultImages s) /\
   1 <= length (resultImages s) <= 6 /\
   Forall (fun url => Js.startsWith "data:" url = true) (resultImages s)).
Proof.
  cbv zeta.
  destruct (run_wellFormed actions initialState initialState_wellFormed)
    as (_ & _ & _ & _ & Hst & Hres & Hurls & _).
  unfold renderContent.
  destruct Hst as [Hidle | Hresult]; [left | right].
  - rewrite Hidle. now split.
  - specialize (Hres Hresult). rewrite Hresult.
    split; [reflexivity|]. split; [|split; assumption].
    destruct (Nat.ltb_spec 0 (length (resultImages (run actions initialState))));
      [reflexivity | lia].
Qed.

(** X13: every entry of the history records a generation that was valid
    and produced between one and six images, each a [data:] URL; pressing
    Reuse on it therefore always leaves the Generate button enabled. *)
Theorem history_entries_can_be_reused
    (actions : list action) (k : nat) (item : HistoryItem.t)
    (Hitem : nth_error (history (run actions initialState)) k = Some item) :
  let s := run actions initialState in
  isGenerateDisabled (step (ClickReuse k) s) = false /\
  1 <= length (HistoryItem.images item) <= 6 /\
  Forall (fun url => Js.startsWith "data:" url = true) (HistoryItem.images item).
Proof.
  cbv zeta.
  destruct (run_wellFormed actions initialState initialState_wellFormed)
    as (_ & _ & _ & _ & _ & _ & _ & Hhist).
  assert (Hok : itemOk item).
  { apply (proj1 (Forall_forall _ _) Hhist). exact (nth_error_In _ _ Hitem). }
  destruct Hok as (Hc & Hlen & Hdata).
  split; [|split; assumption].
  cbn [step]. rewrite Hitem.
  apply isGenerateDisabled_complete. now apply complete_handleReuseHistoryItem.
Qed.

(** The statement of X13 for the fourth entry after eleven generations. *)
Lemma history_entries_can_be_reused_witness :
  let s := run elevenGenerations initialState in
  isGenerateDisabled (step (ClickReuse 3) s) = false.
Proof.
  cbv zeta.
  destruct (nth_error (history (run elevenGenerations initialState)) 3)
    as [item|] eqn:Hitem.
  - exact (proj1 (history_entries_can_be_reused elevenGenerations 3 item Hitem)).
  - vm_compute in Hitem. discriminate.
Defined.

(** ** The zoom modal *)

Section ZoomIndex.

Variable images : list string.
Let n : Z := Z.of_nat (length images).

Lemma handleNext_valid (i : Z) :
  (0 <= i < n)%Z ->
  exists j, ZoomModal.handleNext images (Some i) = Some j /\ (0 <= j < n)%Z /\
            (j = if (i + 1 =? n)%Z then 0 else i + 1)%Z.
Proof.
  intros Hi. unfold ZoomModal.handleNext, ZoomModal.remainder. fold n.
  destruct (Z.eqb_spec n 0) as [H0 | _]; [lia|].
  eexists. split; [reflexivity|].
  destruct (Z.eqb_spec (i + 1) n) as [-> | Hne].
  - rewrite Z.rem_same by lia. split; [lia | reflexivity].
  - rewrite Z.rem_small by lia. split; [lia | reflexivity].
Qed.

Lemma handlePrev_valid (i : Z) :
  (0 <= i < n)%Z ->
  exists j, ZoomModal.handlePrev images (Some i) = Some j /\ (0 <= j < n)%Z /\
            (j = if (i =? 0)%Z then n - 1 else i - 1)%Z.
Proof.
  intros Hi. unfold ZoomModal.handlePrev, ZoomModal.remainder. fold n.
  destruct (Z.eqb_spec n 0) as [H0 | _]; [lia|].
  eexists. split; [reflexivity|].
  destruct (Z.eqb_spec i 0) as [-> | Hne].
  - replace (0 - 1 + n)%Z with (n - 1)%Z by lia.
    rewrite Z.rem_small by lia. split; [lia | reflexivity].
  - replace (i - 1 + n)%Z with (i - 1 + 1 * n)%Z by lia.
    rewrite Z.rem_mod_nonneg, Z_mod_plus_full, Z.mod_small by lia.
    split; [lia | reflexivity].
Qed.

End ZoomIndex.

(** No key changes the list of the modal. *)
Lemma pressKeys_images (images : list string) (startIndex : nat)
    (keys : list string) :
  ZoomModal.images (pressKeys keys (ZoomModal.open images startIndex)) = images.
Proof.
  unfold pressKeys.
  assert (H : forall m, ZoomModal.images
                          (fold_left (fun m key => ZoomModal.handleKeyDown key m) keys m)
                        = ZoomModal.images m).
  { induction keys as [|key keys' IH]; intros m; cbn; [reflexivity|].
    rewrite IH. unfold ZoomModal.handleKeyDown.
    destruct (key =? "ArrowRight"); [reflexivity|].
    destruct (key =? "ArrowLeft"); [reflexivity|].
    destruct (key =? "Escape"); reflexivity. }
  apply H.
Qed.

(** X14: in a zoom modal opened on a picture of its list, whatever keys are
    pressed, the current index remains an index of the list, the list
    itself is not changed, and the picture shown is always one of the
    list. *)
Theorem zoom_index_stays_valid
    (images : list string) (startIndex : nat) (keys : list string)
    (Hstart : startIndex < length images) :
  let m := pressKeys keys (ZoomModal.open images startIndex) in
  ZoomModal.images m = images /\
  exists i,
    ZoomModal.currentIndex m = Some (Z.of_nat i) /\ i < length images /\
    ZoomModal.shown m = nth_error images i /\
    exists src, ZoomModal.shown m = Some src /\ In src images.
Proof.
  cbv zeta.
  assert (Hinv : forall m : ZoomModal.t,
    (ZoomModal.images m = images /\
     exists i, ZoomModal.currentIndex m = Some i /\
               (0 <= i < Z.of_nat (length images))%Z) ->
    ZoomModal.images (pressKeys keys m) = images /\
    exists i, ZoomModal.currentIndex (pressKeys keys m) = Some i /\
              (0 <= i < Z.of_nat (length images))%Z).
  { unfold pressKeys. induction keys as [|key keys' IH]; intros m Hm; cbn.
    - exact Hm.
    - apply IH. destruct Hm as (Himg & i & Hi & Hrange).
      unfold ZoomModal.handleKeyDown.
      destruct (key =? "ArrowRight").
      + cbn. split; [exact Himg|]. rewrite Himg, Hi.
        destruct (handleNext_valid images i Hrange) as (j & -> & Hj & _).
        now exists j.
      + destruct (key =? "ArrowLeft").
        * cbn. split; [exact Himg|]. rewrite Himg, Hi.
          destruct (handlePrev_valid images i Hrange) as (j & -> & Hj & _).
          now exists j.
        * destruct (key =? "Escape"); cbn; (split; [exact Himg | now exists i]). }
  destruct (Hinv (ZoomModal.open images startIndex)) as (Himg & i & Hi & Hrange).
  { cbn. split; [reflexivity|]. exists (Z.of_nat startIndex). split; [reflexivity | lia]. }
  split; [exact Himg|].
  exists (Z.to_nat i).
  assert (Hlt : Z.to_nat i < length images) by lia.
  unfold ZoomModal.shown. rewrite Hi, Himg, Z2Nat.id by lia.
  destruct (Z.ltb_spec i 0) as [Hneg | _]; [lia|].
  repeat split; [exact Hlt|].
  destruct (nth_error images (Z.to_nat i)) as [src|] eqn:Hsrc.
  - exists src. split; [reflexivity | exact (nth_error_In _ _ Hsrc)].
  - apply nth_error_None in Hsrc. lia.
Qed.

(** The statement of X14 for a list of three pictures, opened on the last
    one, after ArrowRight, ArrowRight, a letter, ArrowLeft. *)
Lemma zoom_index_stays_valid_witness :
  let m := pressKeys ["ArrowRight"; "ArrowRight"; "a"; "ArrowLeft"]
             (ZoomModal.open ["x"; "y"; "z"] 2) in
  ZoomModal.images m = ["x"; "y"; "z"] /\
  exists i,
    ZoomModal.currentIndex m = Some (Z.of_nat i) /\ i < 3 /\
    ZoomModal.shown m = nth_error ["x"; "y"; "z"] i /\
    exists src, ZoomModal.shown m = Some src /\ In src ["x"; "y"; "z"].
Proof.
  apply (zoom_index_stays_valid ["x"; "y"; "z"] 2
           ["ArrowRight"; "ArrowRight"; "a"; "ArrowLeft"]).
  cbn. lia.
Defined.

(** X15: on a valid index, next and previous undo each other, the next of
    the last picture is the first and the previous of the first is the
    last; with a single picture both leave the index where it is. *)
Theorem zoom_next_prev_inverse (images : list string) (i : nat)
    (Hi : i < length images) :
  let last := (Z.of_nat (length images) - 1)%Z in
  ZoomModal.handlePrev images (ZoomModal.handleNext images (Some (Z.of_nat i)))
  = Some (Z.of_nat i) /\
  ZoomModal.handleNext images (ZoomModal.handlePrev images (Some (Z.of_nat i)))
  = Some (Z.of_nat i) /\
  ZoomModal.handleNext images (Some last) = Some 0%Z /\
  ZoomModal.handlePrev images (Some 0%Z) = Some last /\
  (length images = 1 ->
   ZoomModal.handleNext images (Some (Z.of_nat i)) = Some (Z.of_nat i) /\
   ZoomModal.handlePrev images (Some (Z.of_nat i)) = Some (Z.of_nat i)).
Proof.
  cbv zeta.
  assert (Hrange : (0 <= Z.of_nat i < Z.of_nat (length images))%Z) by lia.
  destruct (handleNext_valid images _ Hrange) as (j & Hnext & Hj & Hjeq).
  destruct (handlePrev_valid images _ Hrange) as (k & Hprev & Hk & Hkeq).
  destruct (handlePrev_valid images j Hj) as (j' & Hjprev & _ & Hj'eq).
  destruct (handleNext_valid images k Hk) as (k' & Hknext & _ & Hk'eq).
  assert (Hlast : (0 <= Z.of_nat (length images) - 1 < Z.of_nat (length images))%Z)
    by lia.
  assert (Hzero : (0 <= 0 < Z.of_nat (length images))%Z) by lia.
  destruct (handleNext_valid images _ Hlast) as (a & Ha & _ & Haeq).
  destruct (handlePrev_valid images _ Hzero) as (b & Hb & _ & Hbeq).
  rewrite Hnext, Hjprev, Hprev, Hknext, Ha, Hb.
  repeat split.
  - f_equal. subst j' j.
    destruct (Z.eqb_spec (Z.of_nat i + 1) (Z.of_nat (length images)));
      [destruct (Z.eqb_spec 0 0) | destruct (Z.eqb_spec (Z.of_nat i + 1) 0)]; lia.
  - f_equal. subst k' k.
    destruct (Z.eqb_spec (Z.of_nat i) 0);
      [destruct (Z.eqb_spec (Z.of_nat (length images) - 1 + 1)
                            (Z.of_nat (length images)))
      | destruct (Z.eqb_spec (Z.of_nat i - 1 + 1) (Z.of_nat (length images)))]; lia.
  - f_equal. subst a.
    destruct (Z.eqb_spec (Z.of_nat (length images) - 1 + 1)
                         (Z.of_nat (length images))); lia.
  - f_equal. subst b. reflexivity.
  - f_equal. subst j.
    destruct (Z.eqb_spec (Z.of_nat i + 1) (Z.of_nat (length images))); lia.
  - f_equal. subst k. destruct (Z.eqb_spec (Z.of_nat i) 0); lia.
Qed.

(** The statement of X15 for the second of three pictures. *)
Lemma zoom_next_prev_inverse_witness :
  ZoomModal.handlePrev ["x"; "y"; "z"]
    (ZoomModal.handleNext ["x"; "y"; "z"] (Some 1%Z)) = Some 1%Z /\
  ZoomModal.handleNext ["x"; "y"; "z"] (Some 2%Z) = Some 0%Z /\
  ZoomModal.handlePrev ["x"; "y"; "z"] (Some 0%Z) = Some 2%Z.
Proof.
  destruct (zoom_next_prev_inverse ["x"; "y"; "z"] 1) as (H1 & _ & H3 & H4 & _).
  - cbn. lia.
  - repeat split; assumption.
Defined.

Lemma pressKeys_right (images : list string) (k : nat) :
  forall (i : Z) (closed : bool),
    (0 <= i < Z.of_nat (length images))%Z ->
    ZoomModal.currentIndex
      (pressKeys (repeat "ArrowRight" k) (ZoomModal.mk images (Some i) closed))
    = Some ((i + Z.of_nat k) mod Z.of_nat (length images))%Z.
Proof.
  unfold pressKeys. induction k as [|k IH]; intros i closed Hi.
  - cbn. f_equal. rewrite Z.add_0_r, Z.mod_small; lia.
  - cbn [repeat fold_left].
    change (ZoomModal.handleKeyDown "ArrowRight" (ZoomModal.mk images (Some i) closed))
      with (ZoomModal.mk images (ZoomModal.handleNext images (Some i)) closed).
    destruct (handleNext_valid images i Hi) as (j & -> & Hj & Hjeq).
    rewrite (IH j closed Hj). f_equal.
    replace (i + Z.of_nat (S k))%Z with ((i + 1) + Z.of_nat k)%Z by lia.
    subst j. destruct (Z.eqb_spec (i + 1) (Z.of_nat (length images))) as [Heq | Hne].
    + rewrite Heq.
      replace (Z.of_nat (length images) + Z.of_nat k)%Z
        with (Z.of_nat k + 1 * Z.of_nat (length images))%Z by lia.
      now rewrite Z_mod_plus_full.
    + reflexivity.
Qed.

(** X16: pressing ArrowRight as many times as there are pictures brings the
    zoom modal back to the picture it was opened on. *)
Theorem zoom_full_cycle (images : list string) (startIndex : nat)
    (Hstart : startIndex < length images) :
  let m := pressKeys (repeat "ArrowRight" (length images))
             (ZoomModal.open images startIndex) in
  ZoomModal.currentIndex m = Some (Z.of_nat startIndex) /\
  ZoomModal.shown m = nth_error images startIndex.
Proof.
  cbv zeta.
  assert (Hidx : ZoomModal.currentIndex
            (pressKeys (repeat "ArrowRight" (length images))
               (ZoomModal.open images startIndex))
          = Some (Z.of_nat startIndex)).
  { unfold ZoomModal.open. rewrite pressKeys_right by lia. f_equal.
    replace (Z.of_nat startIndex + Z.of_nat (length images))%Z
      with (Z.of_nat startIndex + 1 * Z.of_nat (length images))%Z by lia.
    rewrite Z_mod_plus_full, Z.mod_small; lia. }
  split; [exact Hidx|].
  unfold ZoomModal.shown. rewrite Hidx, pressKeys_images, Nat2Z.id.
  destruct (Z.ltb_spec (Z.of_nat startIndex) 0); [lia | reflexivity].
Qed.

(** The statement of X16 for three pictures opened on the second. *)
Lemma zoom_full_cycle_witness :
  let m := pressKeys (repeat "ArrowRight" 3) (ZoomModal.open ["x"; "y"; "z"] 1) in
  ZoomModal.currentIndex m = Some 1%Z /\ ZoomModal.shown m = Some "y".
Proof.
  apply (zoom_full_cycle ["x"; "y"; "z"] 1). cbn. lia.
Defined.

(** ** Download names *)





(** ** The optional clause of the instruction *)

(** X18: in the three templates with an optional user text (character
    with outfit, character without, product with background), the
    instruction holds an [ADDITIONAL USER REQUEST] clause exactly when the
    user's text is non-empty, and then quotes that text verbatim; with an
    empty text nothing of the clause is left in the instruction. This
    holds for every size selection and every custom width and height. *)
Theorem instruction_optional_clause
    (userPrompt : string) (size : sizeButton) (customWidth customHeight : Z) :
  let withOutfit :=
    characterPlacementPrompt true userPrompt (sizeValue size) customWidth customHeight in
  let withoutOutfit :=
    characterPlacementPrompt false userPrompt (sizeValue size) customWidth customHeight in
  let withBackground :=
    productConceptPrompt true userPrompt (sizeValue size) customWidth customHeight in
  let clause := "ADDITIONAL USER REQUEST: " +:+ Js.dq +:+ userPrompt +:+ Js.dq in
  Js.includes requestMarker withOutfit = Js.truthy userPrompt /\
  Js.includes requestMarker withoutOutfit = Js.truthy userPrompt /\
  Js.includes requestMarker withBackground = Js.truthy userPrompt /\
  (userPrompt <> EmptyString ->
   Js.includes clause withOutfit = true /\
   Js.includes clause withoutOutfit = true /\
   Js.includes clause withBackground = true).
Proof.
  cbv zeta.
  assert (Hforeign : foreignToSizes requestMarker = true) by reflexivity.
  assert (Hclause : forall a u,
    additionalRequest (String a u)
    = Js.nl +:+ ("ADDITIONAL USER REQUEST: " +:+ Js.dq +:+ String a u +:+ Js.dq)
        +:+ EmptyString).
  { intros a u. unfold additionalRequest; cbn [Js.truthy].
    rewrite !append_assoc.
    assert (Hnil : forall x : string, x +:+ EmptyString = x).
    { induction x as [|c x IH]; cbn; [reflexivity | now rewrite IH]. }
    now rewrite Hnil. }
  assert (Hmarker : forall a u, exists after,
    additionalRequest (String a u) = Js.nl +:+ requestMarker +:+ after).
  { intros a u. eexists. unfold additionalRequest; cbn [Js.truthy].
    unfold requestMarker. cbn. reflexivity. }
  assert (Hgen : forall head mid tail : string,
    Js.includes requestMarker head = false ->
    Js.includes requestMarker (mid +:+ tail) = false ->
    let prompt :=
      head +:+ getAspectRatioDescription (sizeValue size) customWidth customHeight
        +:+ mid +:+ additionalRequest userPrompt +:+ tail in
    Js.includes requestMarker prompt = Js.truthy userPrompt /\
    (userPrompt <> EmptyString ->
     Js.includes ("ADDITIONAL USER REQUEST: " +:+ Js.dq +:+ userPrompt +:+ Js.dq)
       prompt = true)).
  { intros head mid tail Hhead Hrest. cbv zeta.
    destruct userPrompt as [|a u].
    - split; [|congruence].
      rewrite (includes_around_clause requestMarker Hforeign).
      unfold additionalRequest; cbn [Js.truthy].
      change (EmptyString +:+ tail) with tail. now rewrite Hhead, Hrest.
    - cbn [Js.truthy]. split.
      + destruct (Hmarker a u) as (after & ->).
        replace (head
                   +:+ getAspectRatioDescription (sizeValue size) customWidth customHeight
                   +:+ mid +:+ (Js.nl +:+ requestMarker +:+ after) +:+ tail)
          with ((head
                   +:+ getAspectRatioDescription (sizeValue size) customWidth customHeight
                   +:+ mid +:+ Js.nl) +:+ requestMarker +:+ (after +:+ tail))
          by (now rewrite !append_assoc).
        apply includes_intro.
      + intros _. rewrite Hclause.
        replace (head
                   +:+ getAspectRatioDescription (sizeValue size) customWidth customHeight
                   +:+ mid
                   +:+ (Js.nl
                          +:+ ("ADDITIONAL USER REQUEST: " +:+ Js.dq +:+ String a u +:+ Js.dq)
                          +:+ EmptyString) +:+ tail)
          with ((head
                   +:+ getAspectRatioDescription (sizeValue size) customWidth customHeight
                   +:+ mid +:+ Js.nl)
                  +:+ ("ADDITIONAL USER REQUEST: " +:+ Js.dq +:+ String a u +:+ Js.dq)
                  +:+ tail)
          by (now rewrite !append_assoc).
        apply includes_intro. }
  destruct (Hgen outfitTemplateHead outfitTemplateMid outfitTemplateTail)
    as [Ho1 Ho2]; [vm_compute; reflexivity | vm_compute; reflexivity |].
  destruct (Hgen placementTemplateHead placementTemplateMid placementTemplateTail)
    as [Hp1 Hp2]; [vm_compute; reflexivity | vm_compute; reflexivity |].
  destruct (Hgen backgroundTemplateHead backgroundTemplateMid backgroundTemplateTail)
    as [Hb1 Hb2]; [vm_compute; reflexivity | vm_compute; reflexivity |].
  unfold characterPlacementPrompt, productConceptPrompt.
  repeat split; try assumption; intros; auto.
Qed.
